(** * TokenAuthenticationService (auth-token.service.ts)

    A shallow embedding of the token holder of Apicurio Studio's front end:
    the class keeps the bearer token handed down by the server, publishes the
    authenticated state through two BehaviorSubjects, and keeps the token
    fresh with a self-rescheduling [setTimeout] / HTTP GET loop.

    The embedding follows the TypeScript text method by method.  Effects are
    explicit: a [World] record holds the fields of the object together with
    the pieces of the browser the code touches (pending timers, requests in
    flight, the console, the document and the location), and every method is
    a computation in a small state-and-exception monad over that record. *)

From Stdlib Require Import ZArith Uint63 Floats Ascii String List Lia.
From stdpp Require Import base option list gmap strings.

Set Warnings "-register-all".
Close Scope Q_scope.
Close Scope uint63_scope.
Close Scope float_scope.
Open Scope Z_scope.
Open Scope string_scope.
Open Scope list_scope.

(** ** JavaScript numbers

    A [number] is a binary64 floating-point number, the kernel's primitive
    [float]: [*] rounds to nearest as the processor does, [=?] and [<?] are
    the IEEE comparisons (NaN differs from itself, the two zeros are
    equal). *)

Definition number : Set := float.

Definition NaN : number := PrimFloat.nan.

(** The number an integer literal reads as: the nearest binary64 number. *)
Definition number_of_Z (z : Z) : number :=
  SF2Prim (binary_normalize prec emax z 0 false).
Arguments number_of_Z : simpl never.

Definition number_is_zero (n : number) : bool := PrimFloat.eqb n PrimFloat.zero.

Definition number_is_nan (n : number) : bool := PrimFloat.is_nan n.

Definition number_is_positive (n : number) : bool := PrimFloat.ltb PrimFloat.zero n.

Definition number_is_negative (n : number) : bool := PrimFloat.ltb n PrimFloat.zero.

(** The [*] of two numbers (Number::multiply). *)
Definition number_mul (a b : number) : number := PrimFloat.mul a b.

(** [a === b] on numbers. *)
Definition number_eqb (a b : number) : bool := PrimFloat.eqb a b.

(** Whether [i * 1000] is the same computed on binary64 numbers and on
    integers, and [i] read as a number is above zero unless it is 0. *)
Definition seconds_exact_at (i : PrimInt63.int) : bool :=
  PrimFloat.Leibniz.eqb
    (PrimFloat.mul (PrimFloat.of_uint63 i) (PrimFloat.of_uint63 1000%uint63))
    (PrimFloat.of_uint63 (PrimInt63.mul i 1000%uint63))
  && (PrimInt63.eqb i 0%uint63 || PrimFloat.ltb PrimFloat.zero (PrimFloat.of_uint63 i)).

(** The same for the [2^k] integers from [i] on. *)
Fixpoint seconds_exact_block (k : nat) (i : PrimInt63.int) : bool :=
  match k with
  | O => seconds_exact_at i
  | S k' =>
      seconds_exact_block k' i
      && seconds_exact_block k' (PrimInt63.add i (Uint63.of_Z (2 ^ Z.of_nat k')))
  end.

(** ** JavaScript values

    The values that flow through the service: what the configuration hands
    over, what [JSON.parse] builds from a response body, and the objects the
    HTTP client rejects with. *)

Inductive value : Type :=
| VUndefined
| VNull
| VBool (b : bool)
| VNum (n : number)
| VStr (s : string)
| VArr (elems : list value)
| VObj (props : list (string * value)).

Fixpoint assoc (k : string) (props : list (string * value)) : option value :=
  match props with
  | [] => None
  | (k', v) :: rest => if String.eqb k k' then Some v else assoc k rest
  end.

(** ToBoolean, the test of [if (x)]. *)
Definition ToBoolean (v : value) : bool :=
  match v with
  | VUndefined | VNull => false
  | VBool b => b
  | VNum n => negb (number_is_zero n || number_is_nan n)
  | VStr s => negb (String.eqb s "")
  | VArr _ | VObj _ => true
  end.

(** [v === n] for a number literal [n]: no conversion is applied. *)
Definition strict_equals_number (v : value) (n : number) : bool :=
  match v with
  | VNum m => number_eqb m n
  | _ => false
  end.

(** Outcome of evaluating a piece of JavaScript: a value or a thrown one. *)
Inductive outcome (A : Type) : Type :=
| Return (a : A)
| Throw (e : value).
Arguments Return {A} a.
Arguments Throw {A} e.

Definition TypeError (message : string) : value :=
  VObj [("name", VStr "TypeError"); ("message", VStr message)].

Definition Error (message : string) : value :=
  VObj [("name", VStr "Error"); ("message", VStr message)].

(** [v.k] for a property name [k] that no built-in prototype defines (the
    three names read in this file are [token], [tokenRefreshPeriod] and
    [status]): reading through [undefined] or [null] throws, an object
    yields its own property or [undefined], and a primitive or an array has
    no such property. *)
Definition get_prop (v : value) (k : string) : outcome value :=
  match v with
  | VUndefined | VNull =>
      Throw (TypeError ("Cannot read property '" +:+ k +:+ "' of " +:+
                        (if v is VNull then "null" else "undefined")))
  | VObj props => Return (default VUndefined (assoc k props))
  | VBool _ | VNum _ | VStr _ | VArr _ => Return VUndefined
  end.

(** ** rxjs: BehaviorSubject

    The part of rxjs 5's [BehaviorSubject] the service relies on.  [emitted]
    is a ghost log of the notifications sent to the observers subscribed so
    far; the other fields are those of the class. *)

Inductive notification (A : Type) : Type :=
| OnNext (a : A)
| OnError (e : value)
| OnComplete.
Arguments OnNext {A} a.
Arguments OnError {A} e.
Arguments OnComplete {A}.

Record BehaviorSubject (A : Type) : Type := mkBehaviorSubject {
  _value : A;
  isStopped : bool;
  thrownError : option value;
  closed : bool;
  emitted : list (notification A)
}.
Arguments mkBehaviorSubject {A}.
Arguments _value {A}.
Arguments isStopped {A}.
Arguments thrownError {A}.
Arguments closed {A}.
Arguments emitted {A}.

Definition ObjectUnsubscribedError : value :=
  VObj [("name", VStr "ObjectUnsubscribedError"); ("message", VStr "object unsubscribed")].

Module BehaviorSubject.

(** [new BehaviorSubject(v)] *)
Definition new {A} (v : A) : BehaviorSubject A :=
  mkBehaviorSubject v false None false [].

(** [subject.next(v)]: the value is stored, and sent on unless the subject
    has stopped; a closed subject throws. *)
Definition next {A} (v : A) (s : BehaviorSubject A) : outcome (BehaviorSubject A) :=
  if closed s then Throw ObjectUnsubscribedError
  else Return (mkBehaviorSubject v (isStopped s) (thrownError s) (closed s)
                 (if isStopped s then emitted s else emitted s ++ [OnNext v])).

(** [subject.getValue()] *)
Definition getValue {A} (s : BehaviorSubject A) : outcome A :=
  match thrownError s with
  | Some e => Throw e
  | None => if closed s then Throw ObjectUnsubscribedError else Return (_value s)
  end.

(** What a new subscriber receives at once from [subject.subscribe(...)]
    (equally through [asObservable()]). *)
Definition subscribe {A} (s : BehaviorSubject A) : outcome (list (notification A)) :=
  if closed s then Throw ObjectUnsubscribedError
  else match thrownError s with
       | Some e => Return [OnError e]
       | None => if isStopped s then Return [OnComplete] else Return [OnNext (_value s)]
       end.

End BehaviorSubject.

(** ** The collaborators of the service *)

(** What [ConfigService] answers (the class is declared elsewhere; the
    service only calls these four getters). *)
Record ConfigService : Type := mkConfigService {
  authToken : value;
  authRefreshPeriod : value;
  user : value;
  logoutUrl : string
}.

(** The callback handed to [setTimeout]: every one in this file is
    [() => { this.refreshToken(); }]. *)
Inductive handler : Type := CallRefreshToken.

Record Timer : Type := mkTimer {
  callback : handler;
  timeout : number            (* milliseconds *)
}.

(** The values that stand for request headers in this file: the object
    literal [{ "Accept": "application/json" }], and the instance of the
    browser's [Headers] class built from it.  The entries are in the order
    of the literal. *)
Inductive header_bag : Type :=
| ObjectLiteral (props : list (string * string))
| Headers (init : list (string * string)).

(** [new Headers(init)] *)
Definition new_Headers (init : header_bag) : header_bag :=
  match init with
  | ObjectLiteral props => Headers props
  | Headers entries => Headers entries
  end.

Record RequestOptions : Type := mkRequestOptions {
  observe : string;
  headers : header_bag
}.

(** A GET issued through [this.http.get(url, options)] whose observable has
    not yet answered. *)
Record Request : Type := mkRequest {
  url : string;
  options : RequestOptions
}.

Record HttpResponse : Type := mkHttpResponse {
  status : Z;
  body : value
}.

(** The error object the HTTP client rejects with on a network error
    (status 0) or a non-2xx answer. *)
Definition HttpErrorResponse (status : Z) (statusText : string) : value :=
  VObj [("name", VStr "HttpErrorResponse");
        ("ok", VBool false);
        ("status", VNum (number_of_Z status));
        ("statusText", VStr statusText)].

(** [s.toLowerCase()] on ASCII letters. *)
Definition ascii_toLowerCase (c : ascii) : ascii :=
  let n := Ascii.N_of_ascii c in
  if ((65 <=? n) && (n <=? 90))%N then Ascii.ascii_of_N (n + 32) else c.

Fixpoint toLowerCase (s : string) : string :=
  match s with
  | EmptyString => EmptyString
  | String c rest => String (ascii_toLowerCase c) (toLowerCase rest)
  end.

(** What Angular's HTTP client ([@angular/common/http], versions 4.3 to 5)
    makes of [options.headers] on the way to the XMLHttpRequest. *)
Module HttpClient.

(** [Object.keys(h)], with the values read through them: the own enumerable
    properties.  An object literal has its entries; an instance of [Headers]
    keeps its list in an internal slot and has none. *)
Definition own_properties (h : header_bag) : list (string * string) :=
  match h with
  | ObjectLiteral props => props
  | Headers _ => []
  end.

(** [new HttpHeaders(h)], which [HttpClient.request] builds from an
    [options.headers] that is not an [HttpHeaders]: one entry for each name
    of [Object.keys(h)], under the name in lower case, a later one
    replacing an earlier one. *)
Definition HttpHeaders (h : header_bag) : gmap string string :=
  foldl (fun m '(name, v) => <[toLowerCase name := v]> m) ∅ (own_properties h).

(** The header lines [HttpXhrBackend] sets on the request, by lower-case
    name: those of the [HttpHeaders], and the default [Accept] when they
    have none. *)
Definition sent_headers (o : RequestOptions) : gmap string string :=
  let hs := HttpHeaders (headers o) in
  match hs !! "accept" with
  | Some _ => hs
  | None => <["accept" := "application/json, text/plain, */*"]> hs
  end.

End HttpClient.

(** ** The state *)

Record World : Type := mkWorld {
  (* fields of TokenAuthenticationService *)
  _authenticated : BehaviorSubject bool;
  _authenticatedUser : BehaviorSubject value;
  accessToken : value;
  config : ConfigService;
  (* the browser *)
  timers : list Timer;                       (* armed by setTimeout, not yet fired *)
  requests : list Request;                   (* GETs in flight *)
  console : list (string * list value);      (* console.info(format, args) *)
  base_elements : list string;               (* href of each <base> element *)
  location_origin : string;
  location_href : string
}.

Definition set_authenticated (s : BehaviorSubject bool) (w : World) : World :=
  mkWorld s (_authenticatedUser w) (accessToken w) (config w) (timers w)
    (requests w) (console w) (base_elements w) (location_origin w) (location_href w).

Definition set_authenticatedUser (s : BehaviorSubject value) (w : World) : World :=
  mkWorld (_authenticated w) s (accessToken w) (config w) (timers w)
    (requests w) (console w) (base_elements w) (location_origin w) (location_href w).

Definition set_accessToken (t : value) (w : World) : World :=
  mkWorld (_authenticated w) (_authenticatedUser w) t (config w) (timers w)
    (requests w) (console w) (base_elements w) (location_origin w) (location_href w).

Definition set_timers (ts : list Timer) (w : World) : World :=
  mkWorld (_authenticated w) (_authenticatedUser w) (accessToken w) (config w) ts
    (requests w) (console w) (base_elements w) (location_origin w) (location_href w).

Definition set_requests (rs : list Request) (w : World) : World :=
  mkWorld (_authenticated w) (_authenticatedUser w) (accessToken w) (config w) (timers w)
    rs (console w) (base_elements w) (location_origin w) (location_href w).

Definition set_console (c : list (string * list value)) (w : World) : World :=
  mkWorld (_authenticated w) (_authenticatedUser w) (accessToken w) (config w) (timers w)
    (requests w) c (base_elements w) (location_origin w) (location_href w).

Definition set_document (bases : list string) (origin : string) (w : World) : World :=
  mkWorld (_authenticated w) (_authenticatedUser w) (accessToken w) (config w) (timers w)
    (requests w) (console w) bases origin (location_href w).

Definition set_location_href (h : string) (w : World) : World :=
  mkWorld (_authenticated w) (_authenticatedUser w) (accessToken w) (config w) (timers w)
    (requests w) (console w) (base_elements w) (location_origin w) h.

(** ** The monad: state passing with exceptions

    A computation takes the world and gives back an outcome together with
    the world as the code left it (what was written before a [throw] stays
    written). *)

Definition M (A : Type) : Type := World -> outcome A * World.

Definition ret {A} (a : A) : M A := fun w => (Return a, w).

Definition throw {A} (e : value) : M A := fun w => (Throw e, w).

Definition bind {A B} (m : M A) (k : A -> M B) : M B :=
  fun w => match m w with
           | (Return a, w') => k a w'
           | (Throw e, w') => (Throw e, w')
           end.

Definition lift {A} (o : outcome A) : M A := fun w => (o, w).

Definition gets {A} (f : World -> A) : M A := fun w => (Return (f w), w).

Definition modify (f : World -> World) : M unit := fun w => (Return tt, f w).

(** [promise.catch(h)] after [m]: [h] runs on what [m] threw. *)
Definition catch {A} (m : M A) (h : value -> M A) : M A :=
  fun w => match m w with
           | (Return a, w') => (Return a, w')
           | (Throw e, w') => h e w'
           end.

Declare Scope js_scope.
Delimit Scope js_scope with js.
Notation "x <- m ;; k" := (bind m (fun x => k))
  (at level 20, m at level 99, k at level 200, only parsing) : js_scope.
Notation "m ;; k" := (bind m (fun _ => k))
  (at level 100, k at level 200, only parsing, right associativity) : js_scope.
Open Scope js_scope.

Definition console_info (format : string) (args : list value) : M unit :=
  modify (fun w => set_console (console w ++ [(format, args)]) w).

Definition setTimeout (h : handler) (ms : number) : M unit :=
  modify (fun w => set_timers (timers w ++ [mkTimer h ms]) w).

Definition http_get (u : string) (o : RequestOptions) : M unit :=
  modify (fun w => set_requests (requests w ++ [mkRequest u o]) w).

(** [s.indexOf(sub)] *)
Definition indexOf (s sub : string) : Z :=
  match String.index 0 sub s with
  | Some n => Z.of_nat n
  | None => -1
  end.

(** ** ECMAScript conversions

    The conversions that reach into the printing and the parsing of numbers,
    and into the methods of objects, are left to an interface: an instance
    says how a number prints (Number::toString), which number a string reads
    as (StringToNumber), and which string an array or an object converts
    to. *)

Class Conversions : Type := {
  NumberToString : number -> string;
  StringToNumber : string -> number;
  ObjectToString : value -> string
}.

(** ** The class *)

Section TokenAuthenticationService.

Context {conversions : Conversions}.

(** ToString, as applied by ["bearer " + x]. *)
Definition ToString (v : value) : string :=
  match v with
  | VUndefined => "undefined"
  | VNull => "null"
  | VBool true => "true"
  | VBool false => "false"
  | VNum n => NumberToString n
  | VStr s => s
  | VArr _ | VObj _ => ObjectToString v
  end.

(** ToNumber, as applied by [x * 1000]. *)
Definition ToNumber (v : value) : number :=
  match v with
  | VUndefined => NaN
  | VNull => number_of_Z 0
  | VBool true => number_of_Z 1
  | VBool false => number_of_Z 0
  | VNum n => n
  | VStr s => StringToNumber s
  | VArr _ | VObj _ => StringToNumber (ObjectToString v)
  end.

(** [a * b] with a number literal on the right. *)
Definition times (a : value) (b : number) : number := number_mul (ToNumber a) b.

(** *** Construction *)

(** The object as the field initialisers leave it, in a page whose
    document and location are given and where nothing is pending. *)
Definition fresh (cfg : ConfigService) (bases : list string) (origin href : string) : World :=
  {| _authenticated := BehaviorSubject.new false;
     _authenticatedUser := BehaviorSubject.new VNull;
     accessToken := VUndefined;
     config := cfg;
     timers := []; requests := []; console := [];
     base_elements := bases; location_origin := origin; location_href := href |}.

Definition constructor : M unit :=
  cfg <- gets config ;;
  modify (set_accessToken (authToken cfg)) ;;

  a <- gets _authenticated ;;
  a' <- lift (BehaviorSubject.next true a) ;;
  modify (set_authenticated a') ;;
  u <- gets _authenticatedUser ;;
  u' <- lift (BehaviorSubject.next (user cfg) u) ;;
  modify (set_authenticatedUser u') ;;

  let refreshPeriod := authRefreshPeriod cfg in
  if ToBoolean refreshPeriod then
    console_info "[TokenAuthenticationService] Will refresh auth token in %d seconds."
                 [refreshPeriod] ;;
    setTimeout CallRefreshToken (times refreshPeriod (number_of_Z 1000))
  else
    console_info "[TokenAuthenticationService] No refresh period set. Token may expire unexpectedly!" [].

(** [new TokenAuthenticationService(http, config)] *)
Definition create (cfg : ConfigService) (bases : list string) (origin href : string) : World :=
  snd (constructor (fresh cfg bases origin href)).

(** *** The public methods *)

Definition isAuthenticated : M (BehaviorSubject bool) := gets _authenticated.

Definition getAuthenticatedUser : M (BehaviorSubject value) := gets _authenticatedUser.

Definition getAuthenticatedUserNow : M value :=
  u <- gets _authenticatedUser ;;
  lift (BehaviorSubject.getValue u).

Definition login (user : string) (credential : value) : M value :=
  throw (Error "Not supported.").

Definition logout : M unit :=
  cfg <- gets config ;;
  modify (set_location_href (logoutUrl cfg)).

(** The map is the caller's object; the result is that object after the
    call. *)
Definition injectAuthHeaders (headers : gmap string string) : M (gmap string string) :=
  token <- gets accessToken ;;
  let authHeader := "bearer " +:+ ToString token in
  ret (<["Authorization" := authHeader]> headers).

Definition getAuthenticationSecret : M value := gets accessToken.

(** *** refreshToken *)

(** The body of [refreshToken] up to the call of [this.http.get]. *)
Definition refreshToken : M unit :=
  bases <- gets base_elements ;;
  match bases with
  | [] => throw (TypeError "Cannot read property 'href' of undefined")
  | href :: _ =>
      let base := href in
      origin <- gets location_origin ;;
      let base := if (indexOf base "/" =? 0)%Z then origin +:+ base else base in
      let url := base +:+ "token" in
      let headers := ObjectLiteral [("Accept", "application/json")] in
      let options := {| observe := "response"; headers := new_Headers headers |} in
      console_info "[TokenAuthenticationService] Refreshing auth token: %s" [VStr url] ;;
      http_get url options
  end.

(** [.map( event => ... )] *)
Definition refreshToken_map (event : HttpResponse) : value :=
  let response := event in
  let auth := body response in
  auth.

(** [.then( auth => ... )] *)
Definition refreshToken_then (auth : value) : M unit :=
  token <- lift (get_prop auth "token") ;;
  modify (set_accessToken token) ;;
  refreshPeriod <- lift (get_prop auth "tokenRefreshPeriod") ;;
  if ToBoolean refreshPeriod then
    console_info "[TokenAuthenticationService] Will refresh auth token in %d seconds."
                 [refreshPeriod] ;;
    setTimeout CallRefreshToken (times refreshPeriod (number_of_Z 1000))
  else
    console_info "[TokenAuthenticationService] No refresh period set. Token may expire unexpectedly!" [].

(** [.catch( error => ... )] *)
Definition refreshToken_catch (error : value) : M unit :=
  console_info "[TokenAuthenticationService] Error refreshing auth token.  Will try again in 30s." [] ;;
  console_info "[TokenAuthenticationService]     %o" [error] ;;
  status <- lift (get_prop error "status") ;;
  (if strict_equals_number status (number_of_Z 0) then
     (* TODO an error 0 may indicate that the user is logged out *)
     ret tt
   else ret tt) ;;
  setTimeout CallRefreshToken (number_mul (number_of_Z 30) (number_of_Z 1000)).

(** The promise chain [get(...).map(...).toPromise().then(...).catch(...)]
    once the observable has answered: with a response it runs the [then]
    callback, and the [catch] callback on what that one throws; with an
    error it runs the [catch] callback alone. *)
Definition refreshToken_settle (answer : HttpResponse + value) : M unit :=
  match answer with
  | inl event => catch (refreshToken_then (refreshToken_map event)) refreshToken_catch
  | inr error => refreshToken_catch error
  end.

(** *** The event loop *)

Inductive call : Type :=
| Call_isAuthenticated
| Call_getAuthenticatedUser
| Call_getAuthenticatedUserNow
| Call_login (user : string) (credential : value)
| Call_logout
| Call_injectAuthHeaders (headers : gmap string string)
| Call_getAuthenticationSecret.

(** The world after a client has called a public method (what the method
    returns or throws goes to the caller). *)
Definition perform (c : call) (w : World) : World :=
  match c with
  | Call_isAuthenticated => snd (isAuthenticated w)
  | Call_getAuthenticatedUser => snd (getAuthenticatedUser w)
  | Call_getAuthenticatedUserNow => snd (getAuthenticatedUserNow w)
  | Call_login u c => snd (login u c w)
  | Call_logout => snd (logout w)
  | Call_injectAuthHeaders h => snd (injectAuthHeaders h w)
  | Call_getAuthenticationSecret => snd (getAuthenticationSecret w)
  end.

Inductive event : Type :=
| TimerFires (i : nat)                                (* the i-th pending timer *)
| ResponseArrives (i : nat) (r : HttpResponse)        (* the i-th request answers *)
| RequestFails (i : nat) (error : value)              (* the i-th request errors *)
| ClientCalls (c : call)
| DocumentChanges (bases : list string) (origin : string).

(** One turn of the event loop; [None] when the event cannot happen in
    [w].  An exception that escapes a timer callback or a promise callback
    is reported by the browser and the loop goes on. *)
Definition step (e : event) (w : World) : option World :=
  match e with
  | TimerFires i =>
      match timers w !! i with
      | Some (mkTimer CallRefreshToken _) =>
          Some (snd (refreshToken (set_timers (delete i (timers w)) w)))
      | None => None
      end
  | ResponseArrives i r =>
      match requests w !! i with
      | Some _ => Some (snd (refreshToken_settle (inl r) (set_requests (delete i (requests w)) w)))
      | None => None
      end
  | RequestFails i error =>
      match requests w !! i with
      | Some _ => Some (snd (refreshToken_settle (inr error) (set_requests (delete i (requests w)) w)))
      | None => None
      end
  | ClientCalls c => Some (perform c w)
  | DocumentChanges bases origin => Some (set_document bases origin w)
  end.

(** The worlds the service can be in: the one the constructor leaves, and
    every one a turn of the event loop leads to. *)
Inductive reachable (cfg : ConfigService) : World -> Prop :=
| reachable_create bases origin href :
    reachable cfg (create cfg bases origin href)
| reachable_step e w w' :
    reachable cfg w -> step e w = Some w' -> reachable cfg w'.

(** A run of the event loop, for examples. *)
Fixpoint run (es : list event) (w : World) : option World :=
  match es with
  | [] => Some w
  | e :: es' => match step e w with
                | Some w' => run es' w'
                | None => None
                end
  end.

(** What the promise callbacks of [refreshToken] leave alone: everything
    but the token, the timers and the console. *)
Definition frame (w : World) :=
  (_authenticated w, _authenticatedUser w, config w, requests w,
   base_elements w, location_origin w, location_href w).

(** The refresh loop is sequential: a pending timer and a request in
    flight never coexist, and there is never more than one of either. *)
Definition sequential (w : World) : Prop :=
  (length (timers w) + length (requests w) <= 1)%nat.

(** The turns of a loop that only fails: a timer fires, or a request is
    rejected with an error object. *)
Definition failing_turn (e : event) : Prop :=
  match e with
  | TimerFires _ => True
  | RequestFails _ (VObj _) => True
  | _ => False
  end.

Definition retry_timer : Timer :=
  mkTimer CallRefreshToken (number_mul (number_of_Z 30) (number_of_Z 1000)).

(** The timer a truthy period [p] arms, none for a falsy one. *)
Definition rearmed (p : value) : list Timer :=
  if ToBoolean p then [mkTimer CallRefreshToken (times p (number_of_Z 1000))] else [].

(** The address [refreshToken] asks, in the words of the specification:
    the origin goes in front of a base that starts with a slash, and the
    segment [token] behind. *)
Definition token_endpoint (origin href : string) : string :=
  (if String.prefix "/" href then origin +:+ href else href) +:+ "token".

End TokenAuthenticationService.

(** ** A page to run the service on

    The service is created with the token ["abc"] and a refresh period of 60
    seconds; the timer fires and the request is in flight.  The examples
    involve no conversion of a number or of an object, and run with an
    instance that answers as for NaN and for a plain object. *)

Definition example_conversions : Conversions :=
  {| NumberToString := fun _ => "NaN";
     StringToNumber := fun _ => NaN;
     ObjectToString := fun _ => "[object Object]" |}.

Section Example.

#[local] Existing Instance example_conversions.

Definition example_config : ConfigService :=
  {| authToken := VStr "abc";
     authRefreshPeriod := VNum (number_of_Z 60);
     user := VObj [("login", VStr "alice")];
     logoutUrl := "/logout" |}.

Definition example_created : World :=
  create example_config ["/studio/"] "https://studio.example"
    "https://studio.example/studio/".

(** The world once the timer armed by the constructor has fired. *)
Definition example_refreshing : World :=
  snd (refreshToken (set_timers [] example_created)).

Definition example_answer (period : Z) : HttpResponse :=
  {| status := 200;
     body := VObj [("token", VStr "xyz"); ("tokenRefreshPeriod", VNum (number_of_Z period))] |}.

(** The world once the request in flight has been answered by [answer]. *)
Definition example_settled (answer : HttpResponse + value) (w : World) : World :=
  snd (refreshToken_settle answer (set_requests [] w)).

(** A failure, the retry, and an answer without a further period. *)
Definition example_events : list event :=
  [RequestFails 0 (HttpErrorResponse 0 "Unknown Error");
   TimerFires 0;
   ResponseArrives 0 (example_answer 0)].

Definition example_halted : World :=
  example_settled (inl (example_answer 0))
    (snd (refreshToken
            (set_timers []
               (example_settled (inr (HttpErrorResponse 0 "Unknown Error"))
                  example_refreshing)))).

(** The same page without [<base>] element. *)
Definition example_baseless : World :=
  create example_config [] "https://studio.example" "https://studio.example/studio/".

(** The world once a failure has been retried: the second request is in
    flight. *)
Definition example_retrying : World :=
  snd (refreshToken
         (set_timers []
            (example_settled (inr (HttpErrorResponse 0 "Unknown Error"))
               example_refreshing))).

End Example.

(** ** Vocabulary of the further properties *)

(** The refreshes that are pending: timers armed and requests in flight. *)
Definition pending (w : World) : nat := (length (timers w) + length (requests w))%nat.

(** [undefined] and [null], the two values a property cannot be read from. *)
Definition nullish (v : value) : bool :=
  match v with
  | VUndefined | VNull => true
  | _ => false
  end.

(** The token a run of the loop leaves, read off the answers alone: each
    response whose body a property can be read from puts its [token] (or
    [undefined]) in place; no other turn counts. *)
Fixpoint token_after (es : list event) (token : value) : value :=
  match es with
  | [] => token
  | ResponseArrives _ r :: es' =>
      match get_prop (body r) "token" with
      | Return t => token_after es' t
      | Throw _ => token_after es' token
      end
  | _ :: es' => token_after es' token
  end.

(** The turns after which a pending refresh is followed by none: a timer
    that fires in a document without [<base>] element, an answer whose
    [tokenRefreshPeriod] is falsy, a rejection with [undefined] or [null]. *)
Definition halts (w : World) (e : event) : bool :=
  match e with
  | TimerFires _ => match base_elements w with [] => true | _ :: _ => false end
  | ResponseArrives _ r =>
      match get_prop (body r) "tokenRefreshPeriod" with
      | Return p => negb (ToBoolean p)
      | Throw _ => false
      end
  | RequestFails _ error => nullish error
  | ClientCalls _ | DocumentChanges _ _ => false
  end.

(** The turns that leave the document as it is. *)
Definition keeps_document (e : event) : Prop :=
  match e with
  | DocumentChanges _ _ => False
  | _ => True
  end.

(** The request [refreshToken] issues in a document whose first [<base>]
    element has the given [href], at the given origin. *)
Definition token_request (origin href : string) : Request :=
  mkRequest (token_endpoint origin href)
    (mkRequestOptions "response" (Headers [("Accept", "application/json")])).

(** * Properties *)

Section Properties.

Context {conversions : Conversions}.

(** ** Numbers and truthiness *)

Lemma Prim2SF_zero : Prim2SF PrimFloat.zero = S754_zero false.
Proof. reflexivity. Qed.

Lemma SFcompare_refl x : x <> S754_nan -> SFcompare x x = Some Eq.
Proof.
  destruct x as [s | s | | s m e]; intros Hx; try congruence; destruct s; cbn;
    rewrite ?Z.compare_refl, ?Pos.compare_cont_refl; reflexivity.
Qed.

(** A number is truthy when it is above or below zero: neither a zero nor
    NaN. *)
Lemma ToBoolean_number n :
  ToBoolean (VNum n) = number_is_positive n || number_is_negative n.
Proof.
  unfold ToBoolean, number_is_zero, number_is_nan, number_is_positive, number_is_negative,
    PrimFloat.is_nan.
  rewrite !FloatAxioms.eqb_spec, !FloatAxioms.ltb_spec, Prim2SF_zero.
  unfold SFeqb, SFltb.
  destruct (Prim2SF n) as [s | s | | s m e] eqn:Hn.
  - reflexivity.
  - rewrite SFcompare_refl by discriminate. destruct s; reflexivity.
  - reflexivity.
  - rewrite SFcompare_refl by discriminate. destruct s; reflexivity.
Qed.

Lemma positive_is_truthy n :
  number_is_positive n = true -> ToBoolean (VNum n) = true.
Proof. rewrite ToBoolean_number. intros ->. reflexivity. Qed.

Lemma negative_is_truthy n :
  number_is_negative n = true -> ToBoolean (VNum n) = true.
Proof. rewrite ToBoolean_number. intros ->. apply orb_true_r. Qed.

Lemma zero_is_falsy n :
  number_is_zero n = true -> ToBoolean (VNum n) = false.
Proof. unfold ToBoolean. intros ->. reflexivity. Qed.

Lemma thirty_seconds :
  number_mul (number_of_Z 30) (number_of_Z 1000) = number_of_Z 30000.
Proof. reflexivity. Qed.

(** ** Whole seconds in milliseconds *)

Lemma number_of_Z_uint63 z :
  0 <= z < 2 ^ 63 -> number_of_Z z = PrimFloat.of_uint63 (Uint63.of_Z z).
Proof.
  intros Hz. unfold number_of_Z.
  rewrite <- (FloatAxioms.SF2Prim_Prim2SF (PrimFloat.of_uint63 (Uint63.of_Z z))).
  rewrite FloatAxioms.of_uint63_spec, Uint63.of_Z_spec.
  rewrite Z.mod_small; [reflexivity|]. exact Hz.
Qed.

Lemma seconds_exact_block_sound k : forall i,
  Uint63.to_Z i + 2 ^ Z.of_nat k <= 2 ^ 53 ->
  seconds_exact_block k i = true ->
  forall z, Uint63.to_Z i <= z < Uint63.to_Z i + 2 ^ Z.of_nat k ->
    PrimFloat.mul (PrimFloat.of_uint63 (Uint63.of_Z z)) (PrimFloat.of_uint63 1000%uint63)
    = PrimFloat.of_uint63 (Uint63.of_Z (z * 1000)) /\
    (0 < z -> PrimFloat.ltb PrimFloat.zero (PrimFloat.of_uint63 (Uint63.of_Z z)) = true).
Proof.
  induction k as [|k IH]; intros i Hb Hcheck z Hz.
  - cbn [seconds_exact_block] in Hcheck. change (2 ^ Z.of_nat 0) with 1 in Hz.
    assert (Hi : Uint63.of_Z z = i).
    { replace z with (Uint63.to_Z i) by lia. apply Uint63.of_to_Z. }
    rewrite Hi. unfold seconds_exact_at in Hcheck.
    apply andb_true_iff in Hcheck as [Hmul Hpos].
    apply FloatAxioms.Leibniz.eqb_spec in Hmul. split.
    + rewrite Hmul. f_equal. apply Uint63.to_Z_inj.
      rewrite Uint63.mul_spec, Uint63.of_Z_spec.
      change (Uint63.to_Z 1000%uint63) with 1000. f_equal. lia.
    + intros Hz0. apply orb_true_iff in Hpos as [Hzero | Hlt]; [|exact Hlt].
      apply Uint63.eqb_spec in Hzero. subst i.
      change (Uint63.to_Z 0%uint63) with 0 in Hz. lia.
  - cbn [seconds_exact_block] in Hcheck.
    apply andb_true_iff in Hcheck as [Hlow Hhigh].
    rewrite Nat2Z.inj_succ, Z.pow_succ_r in Hb, Hz by lia.
    assert (Hpow : 0 < 2 ^ Z.of_nat k) by (apply Z.pow_pos_nonneg; lia).
    pose proof (Uint63.to_Z_bounded i) as Hi.
    assert (Hadd : Uint63.to_Z (PrimInt63.add i (Uint63.of_Z (2 ^ Z.of_nat k)))
                   = Uint63.to_Z i + 2 ^ Z.of_nat k).
    { rewrite Uint63.add_spec, Uint63.of_Z_spec.
      change Uint63.wB with (2 ^ 63) in *.
      rewrite (Z.mod_small (2 ^ Z.of_nat k)) by lia. apply Z.mod_small. lia. }
    destruct (Z.lt_ge_cases z (Uint63.to_Z i + 2 ^ Z.of_nat k)) as [Hlt | Hge].
    + apply (IH i); [lia | exact Hlow | lia].
    + apply (IH (PrimInt63.add i (Uint63.of_Z (2 ^ Z.of_nat k)))); rewrite ?Hadd;
        [lia | exact Hhigh | lia].
Qed.

(** For a whole number of seconds below [2^22] (some 48 days) the binary64
    product with 1000 is the number of milliseconds, and the number of
    seconds is above zero unless it is 0. *)
Lemma whole_seconds_exact z :
  0 <= z < 4194304 ->
  PrimFloat.mul (number_of_Z z) (number_of_Z 1000) = number_of_Z (z * 1000) /\
  (0 < z -> PrimFloat.ltb PrimFloat.zero (number_of_Z z) = true).
Proof.
  intros Hz.
  assert (Hcheck : seconds_exact_block 22 0%uint63 = true) by (vm_compute; reflexivity).
  rewrite !number_of_Z_uint63 by lia.
  apply (seconds_exact_block_sound 22 0%uint63).
  - vm_compute. discriminate.
  - exact Hcheck.
  - exact Hz.
Qed.

(** ** The promise callbacks, field by field *)

Ltac js_unfold :=
  cbv [refreshToken_settle refreshToken_map refreshToken_then refreshToken_catch
       catch bind ret throw lift gets modify console_info setTimeout get_prop body];
  cbn [fst snd].

Lemma frame_fields w w' :
  frame w' = frame w ->
  _authenticated w' = _authenticated w /\
  _authenticatedUser w' = _authenticatedUser w /\
  config w' = config w /\
  requests w' = requests w.
Proof. unfold frame. intros [= -> -> -> -> _ _ _]. auto. Qed.

Lemma refreshToken_then_object props w :
  let t := default VUndefined (assoc "token" props) in
  let p := default VUndefined (assoc "tokenRefreshPeriod" props) in
  let r := refreshToken_then (VObj props) w in
  fst r = Return tt /\
  accessToken (snd r) = t /\
  timers (snd r) = timers w ++ rearmed p /\
  frame (snd r) = frame w.
Proof.
  intros t p. subst t p. unfold rearmed. js_unfold.
  destruct (ToBoolean _); cbn; rewrite ?app_nil_r; auto.
Qed.

Lemma refreshToken_then_primitive auth w :
  auth <> VUndefined -> auth <> VNull -> (forall props, auth <> VObj props) ->
  let r := refreshToken_then auth w in
  fst r = Return tt /\
  accessToken (snd r) = VUndefined /\
  timers (snd r) = timers w /\
  frame (snd r) = frame w.
Proof.
  intros Hu Hn Ho. destruct auth; try congruence; try (exfalso; eapply Ho; reflexivity);
    js_unfold; cbn; auto.
Qed.

Lemma refreshToken_then_nullish auth w :
  auth = VUndefined \/ auth = VNull ->
  exists message, refreshToken_then auth w = (Throw (TypeError message), w).
Proof. intros [-> | ->]; eexists; reflexivity. Qed.

Lemma refreshToken_catch_object props w :
  let r := refreshToken_catch (VObj props) w in
  fst r = Return tt /\
  accessToken (snd r) = accessToken w /\
  timers (snd r) = timers w ++ [mkTimer CallRefreshToken (number_of_Z 30000)] /\
  frame (snd r) = frame w.
Proof.
  js_unfold. destruct (strict_equals_number _ _); cbn; auto.
Qed.

(** A response without a body ([null]) makes the [then] callback throw
    before it writes anything, and the [catch] callback retries. *)
Lemma refreshToken_settle_null_body st w :
  let r := refreshToken_settle (inl (mkHttpResponse st VNull)) w in
  fst r = Return tt /\
  accessToken (snd r) = accessToken w /\
  timers (snd r) = timers w ++ [retry_timer].
Proof. js_unfold. cbn. repeat split. Qed.

(** Whatever the answer, the chain adds no request, touches neither
    subject, and arms one timer at most. *)
Lemma refreshToken_settle_effect answer w :
  let w' := snd (refreshToken_settle answer w) in
  frame w' = frame w /\
  (timers w' = timers w \/ exists tm, timers w' = timers w ++ [tm]).
Proof.
  destruct answer as [[st auth] | error].
  - destruct auth; js_unfold; cbn;
      try (destruct (ToBoolean _); cbn);
      (split; [reflexivity | first [left; reflexivity | right; eexists; reflexivity]]).
  - destruct error; js_unfold; cbn;
      try (destruct (strict_equals_number _ _); cbn);
      (split; [reflexivity | first [left; reflexivity | right; eexists; reflexivity]]).
Qed.

(** ** Construction *)

Lemma constructor_returns cfg bases origin href :
  fst (constructor (fresh cfg bases origin href)) = Return tt.
Proof.
  cbv [constructor fresh bind gets modify lift console_info setTimeout
       BehaviorSubject.next BehaviorSubject.new]; cbn.
  destruct (ToBoolean _); reflexivity.
Qed.

Lemma create_fields cfg bases origin href :
  let w := create cfg bases origin href in
  accessToken w = authToken cfg /\
  _authenticated w = mkBehaviorSubject true false None false [OnNext true] /\
  _authenticatedUser w = mkBehaviorSubject (user cfg) false None false [OnNext (user cfg)] /\
  config w = cfg /\
  timers w = rearmed (authRefreshPeriod cfg) /\
  requests w = [] /\
  base_elements w = bases /\ location_origin w = origin /\ location_href w = href.
Proof.
  cbv [create constructor fresh bind gets modify lift console_info setTimeout
       BehaviorSubject.next BehaviorSubject.new rearmed]; cbn.
  destruct (ToBoolean _); cbn; repeat split; reflexivity.
Qed.

(** ** refreshToken up to the request *)

Lemma indexOf_slash href :
  (indexOf href "/" =? 0)%Z = String.prefix "/" href.
Proof.
  unfold indexOf. destruct href as [|c rest]; [reflexivity|].
  cbn [String.index]. destruct (String.prefix "/" (String c rest)); [reflexivity|].
  destruct (String.index 0 "/" rest); reflexivity.
Qed.

Lemma refreshToken_no_base w :
  base_elements w = [] ->
  exists message, refreshToken w = (Throw (TypeError message), w).
Proof. intros H. unfold refreshToken, bind, gets. rewrite H. eexists; reflexivity. Qed.

Lemma refreshToken_request href rest w :
  base_elements w = href :: rest ->
  let url := token_endpoint (location_origin w) href in
  refreshToken w =
    (Return tt,
     set_requests
       (requests w ++
        [mkRequest url (mkRequestOptions "response"
                          (Headers [("Accept", "application/json")]))])
       (set_console
          (console w ++
           [("[TokenAuthenticationService] Refreshing auth token: %s", [VStr url])])
          w)).
Proof.
  intros H. cbv [refreshToken bind gets modify console_info http_get token_endpoint].
  rewrite H, indexOf_slash. reflexivity.
Qed.

(** [refreshToken] arms no timer, and issues one request at most. *)
Lemma refreshToken_effect w :
  let w' := snd (refreshToken w) in
  timers w' = timers w /\
  accessToken w' = accessToken w /\
  _authenticated w' = _authenticated w /\
  _authenticatedUser w' = _authenticatedUser w /\
  config w' = config w /\
  (requests w' = requests w \/ exists r, requests w' = requests w ++ [r]).
Proof.
  destruct (base_elements w) as [|href rest] eqn:H.
  - destruct (refreshToken_no_base w H) as [m ->]. cbn. auto 10.
  - cbv zeta. rewrite (refreshToken_request href rest w H). cbn. eauto 10.
Qed.

(** ** The public methods leave the session alone *)

Lemma perform_effect c w :
  let w' := perform c w in
  timers w' = timers w /\ requests w' = requests w /\
  accessToken w' = accessToken w /\
  _authenticated w' = _authenticated w /\
  _authenticatedUser w' = _authenticatedUser w /\
  config w' = config w.
Proof.
  destruct c; cbn; repeat split; reflexivity.
Qed.

(** ** One turn of the loop *)

Lemma step_subjects e w w' :
  step e w = Some w' ->
  _authenticated w' = _authenticated w /\
  _authenticatedUser w' = _authenticatedUser w /\
  config w' = config w.
Proof.
  destruct e as [i | i r | i error | c | bases origin]; cbn [step].
  - destruct (timers w !! i) as [[[] ms]|]; [|discriminate].
    intros [= <-]. destruct (refreshToken_effect (set_timers (delete i (timers w)) w))
      as (_ & _ & Ha & Hu & Hc & _). rewrite Ha, Hu, Hc. auto.
  - destruct (requests w !! i); [|discriminate]. intros [= <-].
    destruct (refreshToken_settle_effect (inl r) (set_requests (delete i (requests w)) w))
      as [Hf _]. destruct (frame_fields _ _ Hf) as (Ha & Hu & Hc & _). auto.
  - destruct (requests w !! i); [|discriminate]. intros [= <-].
    destruct (refreshToken_settle_effect (inr error) (set_requests (delete i (requests w)) w))
      as [Hf _]. destruct (frame_fields _ _ Hf) as (Ha & Hu & Hc & _). auto.
  - intros [= <-]. destruct (perform_effect c w) as (_ & _ & _ & Ha & Hu & Hc). auto.
  - intros [= <-]. auto.
Qed.

Lemma step_sequential e w w' :
  sequential w -> step e w = Some w' -> sequential w'.
Proof.
  unfold sequential. intros Hw.
  destruct e as [i | i r | i error | c | bases origin]; cbn [step].
  - destruct (timers w !! i) as [[[] ms]|] eqn:Hi; [|discriminate].
    intros [= <-].
    pose proof (length_delete (timers w) i (mk_is_Some _ _ Hi)) as Hd.
    apply lookup_lt_Some in Hi.
    destruct (refreshToken_effect (set_timers (delete i (timers w)) w))
      as (Ht & _ & _ & _ & _ & [Hr | [r Hr]]); rewrite Ht, Hr; cbn;
      rewrite ?length_app; cbn; lia.
  - destruct (requests w !! i) eqn:Hi; [|discriminate]. intros [= <-].
    pose proof (length_delete (requests w) i (mk_is_Some _ _ Hi)) as Hd.
    apply lookup_lt_Some in Hi.
    destruct (refreshToken_settle_effect (inl r) (set_requests (delete i (requests w)) w))
      as [Hf [Ht | [tm Ht]]]; destruct (frame_fields _ _ Hf) as (_ & _ & _ & Hr);
      cbn [refreshToken_settle] in Ht, Hr |- *; rewrite Ht, Hr; cbn; rewrite ?length_app; cbn; lia.
  - destruct (requests w !! i) eqn:Hi; [|discriminate]. intros [= <-].
    pose proof (length_delete (requests w) i (mk_is_Some _ _ Hi)) as Hd.
    apply lookup_lt_Some in Hi.
    destruct (refreshToken_settle_effect (inr error) (set_requests (delete i (requests w)) w))
      as [Hf [Ht | [tm Ht]]]; destruct (frame_fields _ _ Hf) as (_ & _ & _ & Hr);
      cbn [refreshToken_settle] in Ht, Hr |- *; rewrite Ht, Hr; cbn; rewrite ?length_app; cbn; lia.
  - intros [= <-]. destruct (perform_effect c w) as (Ht & Hr & _). rewrite Ht, Hr. exact Hw.
  - intros [= <-]. exact Hw.
Qed.

Lemma rearmed_length p : (length (rearmed p) <= 1)%nat.
Proof. unfold rearmed. destruct (ToBoolean p); cbn; lia. Qed.

Lemma reachable_sequential cfg w : reachable cfg w -> sequential w.
Proof.
  induction 1 as [bases origin href | e w w' _ IH Hstep].
  - destruct (create_fields cfg bases origin href) as (_ & _ & _ & _ & Ht & Hr & _).
    unfold sequential. rewrite Ht, Hr. pose proof (rearmed_length (authRefreshPeriod cfg)).
    cbn. lia.
  - eapply step_sequential; eassumption.
Qed.

Lemma reachable_subjects cfg w :
  reachable cfg w ->
  _authenticated w = mkBehaviorSubject true false None false [OnNext true] /\
  _authenticatedUser w = mkBehaviorSubject (user cfg) false None false [OnNext (user cfg)] /\
  config w = cfg.
Proof.
  induction 1 as [bases origin href | e w w' _ IH Hstep].
  - destruct (create_fields cfg bases origin href) as (_ & Ha & Hu & Hc & _). auto.
  - destruct (step_subjects _ _ _ Hstep) as (-> & -> & ->). exact IH.
Qed.

Lemma reachable_run cfg es : forall w w',
  reachable cfg w -> run es w = Some w' -> reachable cfg w'.
Proof.
  induction es as [|e es IH]; intros w w' Hw; cbn [run].
  - intros [= <-]. exact Hw.
  - destruct (step e w) as [w1|] eqn:He; [|discriminate].
    apply IH. eapply reachable_step; eassumption.
Qed.

(** ** Runs of failures *)

Lemma In_delete {A} (x : A) i (l : list A) : In x (delete i l) -> In x l.
Proof.
  revert i. induction l as [|y l IH]; intros [|i]; cbn; auto.
  intros [-> | Hx]; eauto.
Qed.

Lemma failing_turn_effect e w w' :
  failing_turn e -> step e w = Some w' ->
  accessToken w' = accessToken w /\
  (forall tm, In tm (timers w') -> In tm (timers w) \/ tm = retry_timer).
Proof.
  destruct e as [i | i r | i error | c | bases origin]; cbn [failing_turn step];
    try contradiction.
  - intros _. destruct (timers w !! i) as [[[] ms]|]; [|discriminate]. intros [= <-].
    destruct (refreshToken_effect (set_timers (delete i (timers w)) w)) as (Ht & Ha & _).
    rewrite Ht, Ha. cbn. split; [reflexivity|].
    intros tm Hin. left. exact (In_delete tm i _ Hin).
  - destruct error as [| | | | | |props]; try contradiction. intros _.
    destruct (requests w !! i); [|discriminate]. intros [= <-].
    destruct (refreshToken_catch_object props (set_requests (delete i (requests w)) w))
      as (_ & Ha & Ht & _).
    cbn [refreshToken_settle]. rewrite Ha, Ht. cbn. split; [reflexivity|].
    intros tm Hin. apply in_app_or in Hin as [Hin | [<- | []]]; [left; exact Hin | right; reflexivity].
Qed.

Lemma failing_run es : forall w w',
  Forall failing_turn es -> run es w = Some w' ->
  accessToken w' = accessToken w /\
  (forall tm, In tm (timers w') -> In tm (timers w) \/ tm = retry_timer).
Proof.
  induction es as [|e es IH]; intros w w' Hall; cbn [run].
  - intros [= <-]. auto.
  - destruct (step e w) as [w1|] eqn:He; [|discriminate]. intros Hrun.
    apply Forall_cons_1 in Hall as [Hhead Htail].
    destruct (failing_turn_effect e w w1 Hhead He) as (Ha1 & Ht1).
    destruct (IH w1 w' Htail Hrun) as (Ha & Ht).
    split; [congruence|].
    intros tm Hin. destruct (Ht tm Hin) as [Hin1 | ->]; [exact (Ht1 tm Hin1) | right; reflexivity].
Qed.

(** ** The claims *)

(** C1, as amended.  A refresh that succeeds with the body
    [{token: t, tokenRefreshPeriod: p}] (the period possibly missing)
    overwrites the held token with [t], so that [getAuthenticationSecret()]
    returns [t] afterwards, and arms exactly one timer if and only if [p] is
    truthy; nothing else is armed and no request is issued.  The delay is
    the binary64 product of [p], as a number, and 1000: for a whole number
    of seconds (below [2^22]) it is that many thousand milliseconds.  For a
    number [p], truthy means neither zero nor NaN, that is above or below
    zero: a positive period and a negative one both arm the timer.  With
    [p] zero or missing the token is updated all the same and no timer is
    armed. *)
Theorem refresh_success_token_and_timer st props t p w :
  assoc "token" props = Some t ->
  assoc "tokenRefreshPeriod" props = p ->
  let period := default VUndefined p in
  let r := refreshToken_settle (inl (mkHttpResponse st (VObj props))) w in
  fst r = Return tt /\
  fst (getAuthenticationSecret (snd r)) = Return t /\
  timers (snd r) =
    timers w ++
    (if ToBoolean period
     then [mkTimer CallRefreshToken (PrimFloat.mul (ToNumber period) 1000%float)] else []) /\
  requests (snd r) = requests w /\
  (forall n, p = Some (VNum n) ->
     ToNumber period = n /\
     ToBoolean period = negb (PrimFloat.eqb n 0%float || PrimFloat.is_nan n) /\
     ToBoolean period = (PrimFloat.ltb 0%float n || PrimFloat.ltb n 0%float)) /\
  (forall z, 0 < z < 4194304 -> p = Some (VNum (number_of_Z z)) ->
     timers (snd r) = timers w ++ [mkTimer CallRefreshToken (number_of_Z (z * 1000))]) /\
  (p = None \/ (exists n, p = Some (VNum n) /\ PrimFloat.eqb n 0%float = true) ->
     timers (snd r) = timers w).
Proof.
  intros Ht Hp period r.
  destruct (refreshToken_then_object props w) as (Hret & Htok & Htim & Hfr).
  rewrite Ht in Htok. rewrite Hp in Htim. cbn in Htok.
  change (default VUndefined p) with period in Htim. unfold rearmed, times in Htim.
  assert (Hr : r = refreshToken_then (VObj props) w).
  { subst r. cbn [refreshToken_settle refreshToken_map body]. unfold catch.
    destruct (refreshToken_then (VObj props) w) as [[[]|e] w']; [reflexivity|discriminate Hret]. }
  rewrite Hr. split; [exact Hret|]. split.
  { unfold getAuthenticationSecret, gets. cbn [fst]. f_equal. exact Htok. }
  split; [exact Htim|]. split; [apply (frame_fields _ _ Hfr)|]. split; [|split].
  - intros n Hn. subst period. rewrite Hn. cbn [default from_option id].
    split; [reflexivity|]. split; [reflexivity | apply ToBoolean_number].
  - intros z Hz Hn. rewrite Htim. subst period. rewrite Hn. cbn [default from_option id].
    destruct (whole_seconds_exact z) as [Hmul Hpos]; [lia|].
    rewrite (positive_is_truthy _ (Hpos (proj1 Hz))). cbn [ToNumber].
    f_equal. f_equal. f_equal. exact Hmul.
  - rewrite Htim. subst period.
    intros [Hn | (n & Hn & Hz)]; rewrite Hn; cbn [default from_option id].
    + apply app_nil_r.
    + rewrite (zero_is_falsy n Hz). apply app_nil_r.
Qed.

(** C2.  When a refresh fails with the error object of the HTTP client,
    whatever its status (0 for a network error, 500, ...), the held token
    is unchanged and exactly one timer is armed, for 30 * 1000 milliseconds;
    the same holds for any error object.  A failure with status 0 leaves the
    same world as a failure with any other status, the console apart.  The
    statement holds in every world, and through any run made of failures
    and timers alone the token stays the same and every timer armed is that
    30-second one, however long the run. *)
Theorem refresh_failure_retries_after_30s st statusText props w :
  let r := refreshToken_settle (inr (HttpErrorResponse st statusText)) w in
  let r0 := refreshToken_settle (inr (HttpErrorResponse 0 statusText)) w in
  let r' := refreshToken_settle (inr (VObj props)) w in
  fst r = Return tt /\
  accessToken (snd r) = accessToken w /\
  timers (snd r) = timers w ++ [mkTimer CallRefreshToken (number_of_Z 30000)] /\
  requests (snd r) = requests w /\
  set_console [] (snd r0) = set_console [] (snd r) /\
  (fst r' = Return tt /\
   accessToken (snd r') = accessToken w /\
   timers (snd r') = timers w ++ [mkTimer CallRefreshToken (number_of_Z 30000)] /\
   requests (snd r') = requests w) /\
  (forall es w',
     Forall failing_turn es -> run es w = Some w' ->
     accessToken w' = accessToken w /\
     (forall tm, In tm (timers w') ->
        In tm (timers w) \/ tm = mkTimer CallRefreshToken (number_of_Z 30000))).
Proof.
  intros r r0 r'. subst r r0 r'. cbn [refreshToken_settle].
  destruct (refreshToken_catch_object props w) as (P1 & P2 & P3 & P4).
  pose proof (refreshToken_catch_object _ w
              : let r := refreshToken_catch (HttpErrorResponse st statusText) w in _)
    as (E1 & E2 & E3 & E4).
  split; [exact E1|]. split; [exact E2|]. split; [exact E3|].
  split; [apply (frame_fields _ _ E4)|]. split; [|split].
  - unfold HttpErrorResponse. js_unfold. cbn.
    repeat match goal with |- context [if ?b then _ else _] => destruct b end; reflexivity.
  - split; [exact P1|]. split; [exact P2|]. split; [exact P3|].
    apply (frame_fields _ _ P4).
  - intros es w'. exact (failing_run es w w').
Qed.

(** C3.  The constructor returns normally and stores the initial token.
    With a positive refresh period [n] it arms exactly one timer, whose
    delay is the binary64 product of [n] and 1000: for a whole number of
    seconds (below [2^22]) that many thousand milliseconds.  With a period
    that is zero or absent ([undefined] or [null]) it arms none.  No
    request is issued. *)
Theorem constructor_schedules_refresh cfg bases origin href :
  let period := authRefreshPeriod cfg in
  let w := create cfg bases origin href in
  fst (constructor (fresh cfg bases origin href)) = Return tt /\
  accessToken w = authToken cfg /\
  requests w = [] /\
  (forall n, period = VNum n -> PrimFloat.ltb 0%float n = true ->
     timers w = [mkTimer CallRefreshToken (PrimFloat.mul n 1000%float)]) /\
  (forall z, 0 < z < 4194304 -> period = VNum (number_of_Z z) ->
     timers w = [mkTimer CallRefreshToken (number_of_Z (z * 1000))]) /\
  (period = VUndefined \/ period = VNull \/
   (exists n, period = VNum n /\ PrimFloat.eqb n 0%float = true) ->
     timers w = []).
Proof.
  intros period w.
  destruct (create_fields cfg bases origin href) as (Htok & _ & _ & _ & Htim & Hreq & _).
  fold w in Htok, Htim, Hreq. fold period in Htim. unfold rearmed, times in Htim.
  split; [apply constructor_returns|]. split; [exact Htok|]. split; [exact Hreq|].
  split; [|split].
  - intros n Hn Hpos. rewrite Htim, Hn, (positive_is_truthy n Hpos). reflexivity.
  - intros z Hz Hn. rewrite Htim, Hn.
    destruct (whole_seconds_exact z) as [Hmul Hpos]; [lia|].
    rewrite (positive_is_truthy _ (Hpos (proj1 Hz))). cbn [ToNumber].
    f_equal. f_equal. exact Hmul.
  - rewrite Htim. intros [-> | [-> | (n & -> & Hz)]]; try reflexivity.
    rewrite (zero_is_falsy n Hz). reflexivity.
Qed.

(** C4.  [injectAuthHeaders(h)] sets [h["Authorization"]] to ["bearer "]
    followed by the token held when it is called, and changes no other
    entry and nothing of the service.  After construction
    with the token ["abc"], [injectAuthHeaders({})] gives
    [{"Authorization": "bearer abc"}]; after a refresh that answered with
    the token [t'], the same call writes ["bearer " + t']. *)
Theorem injectAuthHeaders_reads_current_token h w :
  (let h' := <["Authorization" := "bearer " +:+ ToString (accessToken w)]> h in
   injectAuthHeaders h w = (Return h', w) /\
   h' !! "Authorization" = Some ("bearer " +:+ ToString (accessToken w)) /\
   (forall k, k <> "Authorization" -> h' !! k = h !! k)) /\
  (forall period usr out bases origin href,
     fst (injectAuthHeaders ∅
            (create (mkConfigService (VStr "abc") period usr out) bases origin href))
     = Return {["Authorization" := "bearer abc"]}) /\
  (forall st t' props,
     let w' := snd (refreshToken_settle
                      (inl (mkHttpResponse st (VObj (("token", VStr t') :: props)))) w) in
     fst (injectAuthHeaders h w') = Return (<["Authorization" := "bearer " +:+ t']> h)).
Proof.
  split; [|split].
  - cbv zeta. split; [reflexivity|]. split.
    + apply lookup_insert_eq.
    + intros k Hk. apply lookup_insert_ne. congruence.
  - intros. unfold injectAuthHeaders, bind, gets, ret. cbn [fst].
    destruct (create_fields (mkConfigService (VStr "abc") period usr out) bases origin href)
      as (-> & _). reflexivity.
  - intros st t' props w'. unfold injectAuthHeaders, bind, gets, ret. cbn [fst].
    destruct (refreshToken_then_object (("token", VStr t') :: props) w) as (Hret & Htok & _).
    assert (Hw' : w' = snd (refreshToken_then (VObj (("token", VStr t') :: props)) w)).
    { subst w'. cbn [refreshToken_settle refreshToken_map body]. unfold catch.
      destruct (refreshToken_then _ w) as [[[]|e] w1]; [reflexivity|discriminate Hret]. }
    rewrite Hw', Htok. reflexivity.
Qed.

(** C5.  [login(user, credential)] fails for every input: it throws the
    error "Not supported.", returns no result, and changes nothing. *)
Theorem login_always_fails usr credential w :
  login usr credential w = (Throw (Error "Not supported."), w) /\
  (forall result, fst (login usr credential w) <> Return result) /\
  perform (Call_login usr credential) w = w.
Proof.
  repeat split. intros result H. discriminate H.
Qed.

(** C6.  In every reachable world at most one refresh is pending: the
    pending timers and the requests in flight number one at most together,
    so a timer never coexists with a request and attempts do not overlap.
    The constructor arms one timer at most, and afterwards the number of
    timers grows only in the turn that settles a request. *)
Theorem at_most_one_pending_refresh cfg w :
  reachable cfg w ->
  (length (timers w) + length (requests w) <= 1)%nat /\
  (forall bases origin href,
     (length (timers (create cfg bases origin href)) <= 1)%nat) /\
  (forall e w', step e w = Some w' ->
     (length (timers w) < length (timers w'))%nat ->
     exists i, (exists r, e = ResponseArrives i r) \/ (exists error, e = RequestFails i error)).
Proof.
  intros Hw. split; [exact (reachable_sequential cfg w Hw)|]. split.
  - intros. destruct (create_fields cfg bases origin href) as (_ & _ & _ & _ & -> & _).
    apply rearmed_length.
  - intros e w' Hstep Hlt.
    destruct e as [i | i r | i error | c | bases origin]; cbn [step] in Hstep.
    + exfalso. destruct (timers w !! i) as [[[] ms]|] eqn:Hi; [|discriminate].
      injection Hstep as <-.
      destruct (refreshToken_effect (set_timers (delete i (timers w)) w)) as (Ht & _).
      rewrite Ht in Hlt. cbn in Hlt.
      rewrite (length_delete (timers w) i (mk_is_Some _ _ Hi)) in Hlt. lia.
    + eauto.
    + eauto.
    + exfalso. injection Hstep as <-.
      destruct (perform_effect c w) as (Ht & _). rewrite Ht in Hlt. lia.
    + exfalso. injection Hstep as <-. cbn in Hlt. lia.
Qed.

(** C7.  A refresh that succeeds changes the token and nothing else of the
    session: both subjects and the configuration are as before.  In every
    reachable world [getAuthenticatedUserNow()] returns the user given at
    construction and changes nothing, so two calls in a row return the
    same value, and so does a call after any further run of the loop. *)
Theorem refresh_keeps_authenticated_user cfg w es w' :
  reachable cfg w ->
  run es w = Some w' ->
  getAuthenticatedUserNow w = (Return (user cfg), w) /\
  fst (getAuthenticatedUserNow (snd (getAuthenticatedUserNow w))) = Return (user cfg) /\
  fst (getAuthenticatedUserNow w') = Return (user cfg) /\
  _authenticated w' = _authenticated w /\
  _authenticatedUser w' = _authenticatedUser w /\
  (forall st props,
     let w1 := snd (refreshToken_settle (inl (mkHttpResponse st (VObj props))) w) in
     _authenticated w1 = _authenticated w /\
     _authenticatedUser w1 = _authenticatedUser w /\
     config w1 = config w /\
     fst (getAuthenticatedUserNow w1) = Return (user cfg)).
Proof.
  intros Hw Hrun.
  pose proof (reachable_run cfg es w w' Hw Hrun) as Hw'.
  destruct (reachable_subjects cfg w Hw) as (Ha & Hu & _).
  destruct (reachable_subjects cfg w' Hw') as (Ha' & Hu' & _).
  assert (Hnow : forall x, _authenticatedUser x = _authenticatedUser w ->
                           getAuthenticatedUserNow x = (Return (user cfg), x)).
  { intros x Hx. unfold getAuthenticatedUserNow, bind, gets, lift.
    rewrite Hx, Hu. reflexivity. }
  split; [apply Hnow; reflexivity|].
  split; [rewrite (Hnow w eq_refl); cbn [snd]; rewrite (Hnow w eq_refl); reflexivity|].
  split; [rewrite Hnow; [reflexivity | congruence]|].
  split; [congruence|]. split; [congruence|].
  intros st props w1.
  destruct (refreshToken_settle_effect (inl (mkHttpResponse st (VObj props))) w) as [Hf _].
  destruct (frame_fields _ _ Hf) as (Fa & Fu & Fc & _). fold w1 in Fa, Fu, Fc.
  repeat split; try assumption. rewrite (Hnow w1 Fu). reflexivity.
Qed.

(** C8.  Every call of [refreshToken] computes the address from the
    document and the location as they are at that moment: the [href] of
    the first [<base>] element, with the origin in front when it starts
    with a slash, followed by [token].  It issues exactly one GET, to that
    address, with [observe: "response"], and keeps nothing of the address
    in the service.  The header does not go out as written: the object
    [{Accept: application/json}] is wrapped in an instance of [Headers],
    of which the HTTP client reads no entry, so that the request carries
    the client's default [Accept] and not [application/json]; the object
    itself would have been sent. *)
Theorem refreshToken_request_loses_accept_header href rest origin w :
  let w0 := set_document (href :: rest) origin w in
  let url := (if String.prefix "/" href then origin +:+ href else href) +:+ "token" in
  let opts := mkRequestOptions "response" (Headers [("Accept", "application/json")]) in
  let literal := mkRequestOptions "response" (ObjectLiteral [("Accept", "application/json")]) in
  (exists w1,
     refreshToken w0 = (Return tt, w1) /\
     requests w1 = requests w ++ [mkRequest url opts] /\
     timers w1 = timers w /\
     accessToken w1 = accessToken w /\
     frame (set_requests (requests w0) w1) = frame w0) /\
  HttpClient.sent_headers opts !! "accept" = Some "application/json, text/plain, */*" /\
  HttpClient.sent_headers opts !! "accept" <> Some "application/json" /\
  HttpClient.sent_headers literal !! "accept" = Some "application/json".
Proof.
  intros w0 url opts literal. split.
  - pose proof (refreshToken_request href rest w0 eq_refl) as H. cbv zeta in H.
    unfold token_endpoint in H. subst w0. cbn [location_origin set_document] in H.
    fold url in H. eexists. split; [exact H|]. cbn. repeat split.
  - split; [vm_compute; reflexivity|]. split; [|vm_compute; reflexivity].
    assert (Hsent : HttpClient.sent_headers opts !! "accept"
                    = Some "application/json, text/plain, */*") by (vm_compute; reflexivity).
    rewrite Hsent. discriminate.
Qed.

(** C9.  In every reachable world the observable returned by
    [isAuthenticated()] hands [true] to a new subscriber at once; the
    subject is neither stopped nor in error, and however the loop runs on
    it stays so and sends nothing more: [true], published by the
    constructor, is all it ever sent. *)
Theorem isAuthenticated_emits_true cfg w es w' :
  reachable cfg w ->
  run es w = Some w' ->
  (exists subject,
     isAuthenticated w = (Return subject, w) /\
     BehaviorSubject.subscribe subject = Return [OnNext true]) /\
  emitted (_authenticated w) = [OnNext true] /\
  emitted (_authenticated w') = [OnNext true] /\
  isStopped (_authenticated w') = false /\
  thrownError (_authenticated w') = None /\
  BehaviorSubject.subscribe (_authenticated w') = Return [OnNext true].
Proof.
  intros Hw Hrun.
  pose proof (reachable_run cfg es w w' Hw Hrun) as Hw'.
  destruct (reachable_subjects cfg w Hw) as (Ha & _).
  destruct (reachable_subjects cfg w' Hw') as (Ha' & _).
  split.
  - exists (_authenticated w). split; [reflexivity|]. rewrite Ha. reflexivity.
  - rewrite Ha, Ha'. repeat split.
Qed.

(** C10.  When the request in flight is answered successfully with an
    object that has neither a [token] nor a [tokenRefreshPeriod] property
    (such as [{}]), the token becomes [undefined] and no timer is armed,
    neither for a refresh nor for a retry: nothing is pending any more,
    and no timer or request event can happen again. *)
Theorem refresh_success_without_fields_halts cfg w st props w' :
  reachable cfg w ->
  assoc "token" props = None ->
  assoc "tokenRefreshPeriod" props = None ->
  step (ResponseArrives 0 (mkHttpResponse st (VObj props))) w = Some w' ->
  fst (refreshToken_settle (inl (mkHttpResponse st (VObj props))) w) = Return tt /\
  accessToken w' = VUndefined /\
  timers w' = [] /\
  requests w' = [] /\
  (forall i, step (TimerFires i) w' = None) /\
  (forall i r, step (ResponseArrives i r) w' = None) /\
  (forall i error, step (RequestFails i error) w' = None).
Proof.
  intros Hw Htok Hper Hstep.
  pose proof (reachable_sequential cfg w Hw) as Hseq. unfold sequential in Hseq.
  cbn [step] in Hstep.
  destruct (requests w) as [|r0 rs] eqn:Hreq; [discriminate|].
  cbn in Hstep, Hseq. injection Hstep as Hw'.
  assert (Hts : timers w = []) by (destruct (timers w); [reflexivity | cbn in Hseq; lia]).
  assert (Hrs : rs = []) by (destruct rs; [reflexivity | cbn in Hseq; lia]).
  subst rs.
  assert (Hsettle : forall x,
             refreshToken_settle (inl (mkHttpResponse st (VObj props))) x
             = (Return tt,
                set_console
                  (console x ++
                   [("[TokenAuthenticationService] No refresh period set. Token may expire unexpectedly!", [])])
                  (set_accessToken VUndefined x))).
  { intros x. js_unfold. rewrite Htok, Hper. reflexivity. }
  cbn [refreshToken_settle] in Hsettle, Hw' |- *.
  rewrite Hsettle in Hw'. cbn [snd] in Hw'. subst w'.
  rewrite Hsettle. cbn. rewrite Hts.
  repeat split.
Qed.

End Properties.

(** * Further properties *)

Section FurtherProperties.

Context {conversions : Conversions}.

Ltac js_run :=
  cbv [refreshToken_settle refreshToken_map refreshToken_then refreshToken_catch
       catch bind ret throw lift gets modify console_info setTimeout get_prop body];
  cbn [fst snd].

(** ** The two promise callbacks, case by case *)

(** The [catch] callback never writes the token; it arms the retry unless
    the reason is [undefined] or [null], which it fails to read. *)
Lemma refreshToken_catch_cases error w :
  let r := refreshToken_catch error w in
  accessToken (snd r) = accessToken w /\
  frame (snd r) = frame w /\
  (if nullish error
   then (exists message, fst r = Throw (TypeError message)) /\ timers (snd r) = timers w
   else fst r = Return tt /\ timers (snd r) = timers w ++ [retry_timer]).
Proof.
  destruct error; js_run; cbn;
    try (destruct (strict_equals_number _ _); cbn); repeat split; eauto.
Qed.

(** The chain on a response, by the kind of its body. *)
Lemma refreshToken_settle_response st auth w :
  let r := refreshToken_settle (inl (mkHttpResponse st auth)) w in
  fst r = Return tt /\
  frame (snd r) = frame w /\
  match get_prop auth "token", get_prop auth "tokenRefreshPeriod" with
  | Return t, Return p =>
      accessToken (snd r) = t /\ timers (snd r) = timers w ++ rearmed p
  | _, _ =>
      accessToken (snd r) = accessToken w /\ timers (snd r) = timers w ++ [retry_timer]
  end.
Proof.
  unfold rearmed.
  destruct auth; js_run; cbn; try (destruct (ToBoolean _); cbn);
    rewrite ?app_nil_r; repeat split.
Qed.

Lemma frame_document w w' :
  frame w' = frame w ->
  base_elements w' = base_elements w /\
  location_origin w' = location_origin w /\
  location_href w' = location_href w.
Proof. unfold frame. intros [= _ _ _ _ -> -> ->]. auto. Qed.

(** ** A turn of the loop and what stays pending *)

Lemma turn_pending e w w' :
  (pending w <= 1)%nat ->
  step e w = Some w' ->
  pending w' = if halts w e then 0%nat else pending w.
Proof.
  unfold pending. intros Hw.
  destruct e as [i | i r | i error | c | bases origin]; cbn [step halts].
  - destruct (timers w !! i) as [[[] ms]|] eqn:Hi; [|discriminate]. intros [= <-].
    pose proof (length_delete (timers w) i (mk_is_Some _ _ Hi)) as Hd.
    apply lookup_lt_Some in Hi.
    destruct (base_elements w) as [|href rest] eqn:Hb.
    + destruct (refreshToken_no_base (set_timers (delete i (timers w)) w) Hb) as [m ->].
      cbn. lia.
    + rewrite (refreshToken_request href rest (set_timers (delete i (timers w)) w) Hb).
      cbn. rewrite length_app. cbn. lia.
  - destruct (requests w !! i) eqn:Hi; [|discriminate]. intros [= <-].
    pose proof (length_delete (requests w) i (mk_is_Some _ _ Hi)) as Hd.
    apply lookup_lt_Some in Hi. destruct r as [st auth].
    destruct (refreshToken_settle_response st auth (set_requests (delete i (requests w)) w))
      as (_ & Hf & Hcase).
    destruct (frame_fields _ _ Hf) as (_ & _ & _ & Hr).
    cbn [refreshToken_settle] in Hcase, Hr |- *. rewrite Hr. cbn [body].
    destruct auth; cbn [get_prop] in Hcase |- *; destruct Hcase as [_ Ht]; rewrite Ht;
      unfold rearmed; try destruct (ToBoolean _); cbn; rewrite ?length_app; cbn; lia.
  - destruct (requests w !! i) eqn:Hi; [|discriminate]. intros [= <-].
    pose proof (length_delete (requests w) i (mk_is_Some _ _ Hi)) as Hd.
    apply lookup_lt_Some in Hi.
    destruct (refreshToken_catch_cases error (set_requests (delete i (requests w)) w))
      as (_ & Hf & Hcase).
    destruct (frame_fields _ _ Hf) as (_ & _ & _ & Hr).
    cbn [refreshToken_settle]. rewrite Hr.
    destruct (nullish error); [destruct Hcase as [_ Ht] | destruct Hcase as [_ Ht]];
      rewrite Ht; cbn; rewrite ?length_app; cbn; lia.
  - intros [= <-]. destruct (perform_effect c w) as (Ht & Hr & _). rewrite Ht, Hr. reflexivity.
  - intros [= <-]. reflexivity.
Qed.

Lemma turn_token e w w' :
  step e w = Some w' -> accessToken w' = token_after [e] (accessToken w).
Proof.
  destruct e as [i | i r | i error | c | bases origin]; cbn [step token_after].
  - destruct (timers w !! i) as [[[] ms]|]; [|discriminate]. intros [= <-].
    destruct (refreshToken_effect (set_timers (delete i (timers w)) w)) as (_ & Ha & _).
    exact Ha.
  - destruct (requests w !! i); [|discriminate]. intros [= <-]. destruct r as [st auth].
    destruct (refreshToken_settle_response st auth (set_requests (delete i (requests w)) w))
      as (_ & _ & Hcase).
    cbn [refreshToken_settle body] in Hcase |- *.
    destruct auth; cbn [get_prop] in Hcase |- *; destruct Hcase as [Ha _]; exact Ha.
  - destruct (requests w !! i); [|discriminate]. intros [= <-].
    destruct (refreshToken_catch_cases error (set_requests (delete i (requests w)) w))
      as (Ha & _).
    exact Ha.
  - intros [= <-]. destruct (perform_effect c w) as (_ & _ & Ha & _). exact Ha.
  - intros [= <-]. reflexivity.
Qed.

Lemma token_after_app es1 es2 token :
  token_after (es1 ++ es2) token = token_after es2 (token_after es1 token).
Proof.
  revert token. induction es1 as [|e es1 IH]; intros token; [reflexivity|].
  destruct e as [i | i r | i error | c | bases origin]; cbn [app token_after]; auto.
  destruct (get_prop (body r) "token"); auto.
Qed.

Lemma run_pending_zero es : forall w w',
  pending w = 0%nat -> run es w = Some w' -> pending w' = 0%nat.
Proof.
  induction es as [|e es IH]; intros w w' Hw; cbn [run].
  - intros [= <-]. exact Hw.
  - destruct (step e w) as [w1|] eqn:He; [|discriminate].
    apply (IH w1 w'). rewrite (turn_pending e w w1) by (rewrite ?Hw; auto with arith; lia).
    destruct (halts w e); [reflexivity | exact Hw].
Qed.

Lemma step_base_elements e w w' :
  step e w = Some w' ->
  base_elements w' = match e with DocumentChanges bases _ => bases | _ => base_elements w end.
Proof.
  destruct e as [i | i r | i error | c | bases origin]; cbn [step].
  - destruct (timers w !! i) as [[[] ms]|]; [|discriminate]. intros [= <-].
    destruct (base_elements w) as [|href rest] eqn:Hb.
    + destruct (refreshToken_no_base (set_timers (delete i (timers w)) w) Hb) as [m ->].
      exact Hb.
    + rewrite (refreshToken_request href rest (set_timers (delete i (timers w)) w) Hb).
      exact Hb.
  - destruct (requests w !! i); [|discriminate]. intros [= <-].
    destruct (refreshToken_settle_effect (inl r) (set_requests (delete i (requests w)) w))
      as [Hf _]. exact (proj1 (frame_document _ _ Hf)).
  - destruct (requests w !! i); [|discriminate]. intros [= <-].
    destruct (refreshToken_settle_effect (inr error) (set_requests (delete i (requests w)) w))
      as [Hf _]. exact (proj1 (frame_document _ _ Hf)).
  - intros [= <-]. destruct c; reflexivity.
  - intros [= <-]. reflexivity.
Qed.

(** ** logout and the loop *)

Lemma logout_world w : logout w = (Return tt, set_location_href (logoutUrl (config w)) w).
Proof. reflexivity. Qed.

Lemma refreshToken_relocated h w :
  snd (refreshToken (set_location_href h w)) = set_location_href h (snd (refreshToken w)).
Proof.
  destruct (base_elements w) as [|href rest] eqn:Hb.
  - destruct (refreshToken_no_base w Hb) as [m ->].
    destruct (refreshToken_no_base (set_location_href h w) Hb) as [m' ->]. reflexivity.
  - rewrite (refreshToken_request href rest w Hb).
    rewrite (refreshToken_request href rest (set_location_href h w) Hb). reflexivity.
Qed.

Lemma refreshToken_settle_relocated answer h w :
  snd (refreshToken_settle answer (set_location_href h w))
  = set_location_href h (snd (refreshToken_settle answer w)).
Proof.
  destruct answer as [[st auth] | error].
  - destruct auth; js_run; cbn; try (destruct (ToBoolean _); cbn); reflexivity.
  - destruct error; js_run; cbn; try (destruct (strict_equals_number _ _); cbn); reflexivity.
Qed.

Lemma step_relocated e w :
  step e (snd (logout w)) = (fun x => snd (logout x)) <$> step e w.
Proof.
  rewrite logout_world. cbn [snd].
  destruct e as [i | i r | i error | c | bases origin]; cbn [step].
  - change (timers (set_location_href (logoutUrl (config w)) w)) with (timers w).
    destruct (timers w !! i) as [[[] ms]|]; [|reflexivity]. cbn [fmap option_fmap option_map].
    f_equal. rewrite logout_world. cbn [snd].
    destruct (refreshToken_effect (set_timers (delete i (timers w)) w))
      as (_ & _ & _ & _ & -> & _).
    apply (refreshToken_relocated _ (set_timers (delete i (timers w)) w)).
  - change (requests (set_location_href (logoutUrl (config w)) w)) with (requests w).
    destruct (requests w !! i); [|reflexivity]. cbn [fmap option_fmap option_map].
    f_equal. rewrite logout_world. cbn [snd].
    destruct (refreshToken_settle_effect (inl r) (set_requests (delete i (requests w)) w))
      as [Hf _]. destruct (frame_fields _ _ Hf) as (_ & _ & -> & _).
    apply (refreshToken_settle_relocated _ _ (set_requests (delete i (requests w)) w)).
  - change (requests (set_location_href (logoutUrl (config w)) w)) with (requests w).
    destruct (requests w !! i); [|reflexivity]. cbn [fmap option_fmap option_map].
    f_equal. rewrite logout_world. cbn [snd].
    destruct (refreshToken_settle_effect (inr error) (set_requests (delete i (requests w)) w))
      as [Hf _]. destruct (frame_fields _ _ Hf) as (_ & _ & -> & _).
    apply (refreshToken_settle_relocated _ _ (set_requests (delete i (requests w)) w)).
  - cbn [fmap option_fmap option_map]. f_equal. destruct c; reflexivity.
  - reflexivity.
Qed.

(** ** The further properties *)

(** X1.  [logout()] writes [config.logoutUrl()] to [location.href] and
    nothing else: the token, both subjects, the pending timer and the
    request in flight stay, and every turn of the loop goes on after it as
    it would have without it, the location apart. *)
Theorem logout_only_navigates w :
  let w' := snd (logout w) in
  fst (logout w) = Return tt /\
  location_href w' = logoutUrl (config w) /\
  set_location_href (location_href w) w' = w /\
  fst (getAuthenticationSecret w') = fst (getAuthenticationSecret w) /\
  timers w' = timers w /\
  requests w' = requests w /\
  (forall e, step e w' = (fun x => snd (logout x)) <$> step e w).
Proof.
  cbv zeta. repeat split; try (destruct w; reflexivity).
  intros e. apply step_relocated.
Qed.

(** X2.  In every reachable world, and after any further run of the loop,
    the observable returned by [getAuthenticatedUser()] hands the user of
    the configuration to a new subscriber at once; the subject is neither
    stopped nor in error and has sent nothing else. *)
Theorem getAuthenticatedUser_emits_configured_user cfg w es w' :
  reachable cfg w ->
  run es w = Some w' ->
  (exists subject,
     getAuthenticatedUser w' = (Return subject, w') /\
     BehaviorSubject.subscribe subject = Return [OnNext (user cfg)]) /\
  emitted (_authenticatedUser w') = [OnNext (user cfg)] /\
  isStopped (_authenticatedUser w') = false /\
  thrownError (_authenticatedUser w') = None.
Proof.
  intros Hw Hrun.
  pose proof (reachable_run cfg es w w' Hw Hrun) as Hw'.
  destruct (reachable_subjects cfg w' Hw') as (_ & Hu & _).
  split.
  - exists (_authenticatedUser w'). split; [reflexivity|]. rewrite Hu. reflexivity.
  - rewrite Hu. repeat split.
Qed.

(** X3.  The token a run leaves depends on the answers alone: it is the
    [token] property of the last response whose body is neither [undefined]
    nor [null] ([undefined] when that body has no such property), and the
    token before the run when there is no such response.  Timers, failures,
    calls of the public methods and changes of the document do not count. *)
Theorem token_is_last_answered es w w' :
  run es w = Some w' ->
  fst (getAuthenticationSecret w') = Return (token_after es (accessToken w)).
Proof.
  unfold getAuthenticationSecret, gets. cbn [fst]. intros Hrun. f_equal.
  revert w w' Hrun. induction es as [|e es IH]; intros w w'; cbn [run].
  - intros [= <-]. reflexivity.
  - destruct (step e w) as [w1|] eqn:He; [|discriminate]. intros Hrun.
    rewrite (IH w1 w' Hrun), (turn_token e w w1 He).
    symmetry. apply (token_after_app [e] es).
Qed.

(** X4.  When the request is rejected, the [catch] callback arms the
    30-second retry for every reason but [undefined] and [null]: an error
    object, a string, a number.  With [undefined] or [null] it throws while
    reading [error.status], after logging, and arms nothing.  In no case is
    the token written or a request issued. *)
Theorem rejection_retries_unless_nullish error w :
  let r := refreshToken_settle (inr error) w in
  accessToken (snd r) = accessToken w /\
  requests (snd r) = requests w /\
  (if nullish error
   then (exists message, fst r = Throw (TypeError message)) /\ timers (snd r) = timers w
   else fst r = Return tt /\
        timers (snd r) = timers w ++ [mkTimer CallRefreshToken (number_of_Z 30000)]).
Proof.
  cbv zeta. cbn [refreshToken_settle].
  destruct (refreshToken_catch_cases error w) as (Ha & Hf & Hcase).
  split; [exact Ha|]. split; [apply (frame_fields _ _ Hf)|]. exact Hcase.
Qed.

(** X5.  A response whose body is [null] or [undefined] (an empty answer)
    is handled as a failure: the [then] callback throws before it writes
    the token, the [catch] callback takes over, the token is unchanged and
    the 30-second retry is armed. *)
Theorem empty_answer_retries st auth w :
  nullish auth = true ->
  let r := refreshToken_settle (inl (mkHttpResponse st auth)) w in
  (exists message, refreshToken_then auth w = (Throw (TypeError message), w)) /\
  fst r = Return tt /\
  accessToken (snd r) = accessToken w /\
  timers (snd r) = timers w ++ [mkTimer CallRefreshToken (number_of_Z 30000)] /\
  requests (snd r) = requests w.
Proof.
  intros Hn r.
  destruct (refreshToken_settle_response st auth w) as (Hret & Hf & Hcase). fold r in Hret, Hf, Hcase.
  split.
  { apply refreshToken_then_nullish. destruct auth; try discriminate Hn; auto. }
  split; [exact Hret|].
  destruct auth; try discriminate Hn; cbn [get_prop] in Hcase; destruct Hcase as [Ha Ht];
    (split; [exact Ha|]); (split; [exact Ht|]); apply (frame_fields _ _ Hf).
Qed.

(** X6.  A response whose body is a boolean, a number, a string or an
    array has no [token] and no [tokenRefreshPeriod]: the token becomes
    [undefined], no timer is armed and the [catch] callback does not run. *)
Theorem primitive_answer_clobbers_token st auth w :
  match auth with VBool _ | VNum _ | VStr _ | VArr _ => True | _ => False end ->
  let r := refreshToken_settle (inl (mkHttpResponse st auth)) w in
  refreshToken_then auth w = r /\
  fst r = Return tt /\
  fst (getAuthenticationSecret (snd r)) = Return VUndefined /\
  timers (snd r) = timers w /\
  requests (snd r) = requests w.
Proof.
  intros Hkind r. subst r.
  destruct auth; try contradiction; js_run; cbn; repeat split.
Qed.

Lemma pending_zero_nil w : pending w = 0%nat -> timers w = [] /\ requests w = [].
Proof.
  unfold pending. intros H.
  destruct (timers w), (requests w); cbn in H; try lia; auto.
Qed.

Lemma quiet_turn e w w' :
  pending w = 0%nat -> step e w = Some w' ->
  match e with ClientCalls _ | DocumentChanges _ _ => True | _ => False end /\
  pending w' = 0%nat /\ accessToken w' = accessToken w.
Proof.
  intros Hw. destruct (pending_zero_nil w Hw) as [Ht Hr].
  destruct e as [i | i r | i error | c | bases origin]; cbn [step]; rewrite ?Ht, ?Hr;
    try (rewrite lookup_nil; discriminate); intros [= <-].
  - destruct (perform_effect c w) as (Ht' & Hr' & Ha & _).
    unfold pending. rewrite Ht', Hr', Ha. auto.
  - auto.
Qed.

Lemma requests_step e w w' href rest :
  step e w = Some w' ->
  base_elements w = href :: rest ->
  forall r, In r (requests w') ->
    In r (requests w) \/ r = token_request (location_origin w) href.
Proof.
  intros Hstep Hb.
  destruct e as [i | i rsp | i error | c | bases origin]; cbn [step] in Hstep.
  - destruct (timers w !! i) as [[[] ms]|]; [|discriminate]. injection Hstep as <-. intros r.
    rewrite (refreshToken_request href rest (set_timers (delete i (timers w)) w) Hb).
    cbn. intros Hin. apply in_app_or in Hin as [Hin | [<- | []]]; [left; exact Hin|].
    right. reflexivity.
  - destruct (requests w !! i) as [r0|]; [|discriminate]. injection Hstep as <-. intros r.
    destruct (refreshToken_settle_effect (inl rsp) (set_requests (delete i (requests w)) w))
      as [Hf _]. destruct (frame_fields _ _ Hf) as (_ & _ & _ & Hr).
    cbn [refreshToken_settle] in Hr |- *. rewrite Hr. cbn. intros Hin. left.
    exact (In_delete r i _ Hin).
  - destruct (requests w !! i) as [r0|]; [|discriminate]. injection Hstep as <-. intros r.
    destruct (refreshToken_settle_effect (inr error) (set_requests (delete i (requests w)) w))
      as [Hf _]. destruct (frame_fields _ _ Hf) as (_ & _ & _ & Hr).
    cbn [refreshToken_settle] in Hr |- *. rewrite Hr. cbn. intros Hin. left.
    exact (In_delete r i _ Hin).
  - injection Hstep as <-. intros r. destruct (perform_effect c w) as (_ & -> & _). auto.
  - injection Hstep as <-. intros r. cbn. auto.
Qed.

Lemma step_location_origin e w w' :
  step e w = Some w' -> keeps_document e -> location_origin w' = location_origin w.
Proof.
  destruct e as [i | i r | i error | c | bases origin]; cbn [step keeps_document];
    try contradiction.
  - destruct (timers w !! i) as [[[] ms]|]; [|discriminate]. intros [= <-] _.
    destruct (base_elements w) as [|href rest] eqn:Hb.
    + destruct (refreshToken_no_base (set_timers (delete i (timers w)) w) Hb) as [m ->].
      reflexivity.
    + rewrite (refreshToken_request href rest (set_timers (delete i (timers w)) w) Hb).
      reflexivity.
  - destruct (requests w !! i); [|discriminate]. intros [= <-] _.
    destruct (refreshToken_settle_effect (inl r) (set_requests (delete i (requests w)) w))
      as [Hf _]. exact (proj1 (proj2 (frame_document _ _ Hf))).
  - destruct (requests w !! i); [|discriminate]. intros [= <-] _.
    destruct (refreshToken_settle_effect (inr error) (set_requests (delete i (requests w)) w))
      as [Hf _]. exact (proj1 (proj2 (frame_document _ _ Hf))).
  - intros [= <-] _. destruct c; reflexivity.
Qed.

Lemma requests_run origin href rest es : forall w w',
  base_elements w = href :: rest ->
  location_origin w = origin ->
  (forall r, In r (requests w) -> r = token_request origin href) ->
  Forall keeps_document es ->
  run es w = Some w' ->
  forall r, In r (requests w') -> r = token_request origin href.
Proof.
  induction es as [|e es IH]; intros w w' Hb Ho Hall Hkeep; cbn [run].
  - intros [= <-]. exact Hall.
  - destruct (step e w) as [w1|] eqn:He; [|discriminate]. intros Hrun.
    apply Forall_cons_1 in Hkeep as [Hhead Htail].
    apply (IH w1 w'); auto.
    + rewrite (step_base_elements e w w1 He). destruct e; try exact Hb. contradiction.
    + rewrite (step_location_origin e w w1 He Hhead). exact Ho.
    + intros r Hin. destruct (requests_step e w w1 href rest He Hb r Hin) as [Hold | ->].
      * exact (Hall r Hold).
      * rewrite Ho. reflexivity.
Qed.

Lemma failing_turn_pending e w w' :
  pending w = 1%nat ->
  base_elements w <> [] ->
  failing_turn e ->
  step e w = Some w' ->
  pending w' = 1%nat /\ base_elements w' = base_elements w.
Proof.
  intros Hp Hb Hfail Hstep.
  assert (Hh : halts w e = false).
  { destruct e as [i | i r | i [| | | | | |props] | c | bs o]; try contradiction;
      cbn [halts nullish]; [|reflexivity].
    destruct (base_elements w); [contradiction | reflexivity]. }
  split.
  - rewrite (turn_pending e w w' (Nat.eq_le_incl _ _ Hp) Hstep), Hh. exact Hp.
  - rewrite (step_base_elements e w w' Hstep). destruct e; try reflexivity; contradiction.
Qed.

(** X7.  When the timer fires in a document without [<base>] element,
    [refreshToken] throws while reading [href]: no request is issued, the
    token stays, and as the timer is spent nothing is pending any more,
    whatever happens afterwards. *)
Theorem refresh_without_base_halts cfg w i w' :
  reachable cfg w ->
  base_elements w = [] ->
  step (TimerFires i) w = Some w' ->
  (exists message x, refreshToken x = (Throw (TypeError message), w')) /\
  timers w' = [] /\
  requests w' = [] /\
  accessToken w' = accessToken w /\
  (forall es w'', run es w' = Some w'' -> pending w'' = 0%nat).
Proof.
  intros Hw Hb Hstep.
  pose proof (reachable_sequential cfg w Hw) as Hseq.
  assert (Hp : pending w' = 0%nat).
  { rewrite (turn_pending (TimerFires i) w w' Hseq Hstep). cbn [halts]. rewrite Hb. reflexivity. }
  destruct (pending_zero_nil w' Hp) as [Ht Hr].
  cbn [step] in Hstep. destruct (timers w !! i) as [[[] ms]|]; [|discriminate].
  destruct (refreshToken_no_base (set_timers (delete i (timers w)) w) Hb) as [m Hm].
  rewrite Hm in Hstep. cbn [snd] in Hstep. injection Hstep as Hw'.
  split; [exists m, (set_timers (delete i (timers w)) w); rewrite Hm, Hw'; reflexivity|].
  split; [exact Ht|]. split; [exact Hr|]. split; [subst w'; reflexivity|].
  intros es w'' Hrun. exact (run_pending_zero es w' w'' Hp Hrun).
Qed.

(** X8.  A turn of the loop ends the refreshing in exactly three cases: a
    timer that fires in a document without [<base>] element, an answer
    whose [tokenRefreshPeriod] is falsy or missing, and a rejection with
    [undefined] or [null].  After every other turn as many refreshes are
    pending as before. *)
Theorem turn_halts_or_keeps_pending cfg w e w' :
  reachable cfg w ->
  step e w = Some w' ->
  pending w' = if halts w e then 0%nat else pending w.
Proof.
  intros Hw Hstep.
  exact (turn_pending e w w' (reachable_sequential cfg w Hw) Hstep).
Qed.

(** X9.  Injecting into a map that already carries an [Authorization]
    entry, from an earlier call or from the caller, replaces it: a second
    call gives what it would have given on the original map, and the keys
    of the result are those of the map together with [Authorization]. *)
Theorem injectAuthHeaders_replaces_stale_header h h1 w w' :
  fst (injectAuthHeaders h w) = Return h1 ->
  injectAuthHeaders h1 w' = injectAuthHeaders h w' /\
  injectAuthHeaders h1 w = (Return h1, w) /\
  dom h1 = {["Authorization"]} ∪ dom h.
Proof.
  unfold injectAuthHeaders, bind, gets, ret. cbn [fst]. intros [= <-].
  rewrite !insert_insert_eq. repeat split. apply dom_insert_L.
Qed.

(** X10.  The constructor arms a timer exactly when the configured period
    is truthy.  A number arms one unless it is a zero or NaN, with the
    binary64 product of the number and 1000 as delay: so does a negative
    period, for a whole number of seconds (down to [-1]) with that many
    thousand milliseconds below zero as delay.  A string arms one unless it
    is empty, with the number it reads as times 1000. *)
Theorem constructor_arms_iff_truthy cfg bases origin href :
  let period := authRefreshPeriod cfg in
  let w := create cfg bases origin href in
  (length (timers w) = 1%nat <-> ToBoolean period = true) /\
  (timers w = [] <-> ToBoolean period = false) /\
  (forall n, period = VNum n ->
     timers w =
       if PrimFloat.eqb n 0%float || PrimFloat.is_nan n then []
       else [mkTimer CallRefreshToken (PrimFloat.mul n 1000%float)]) /\
  (forall n, period = VNum n -> PrimFloat.ltb n 0%float = true ->
     timers w = [mkTimer CallRefreshToken (PrimFloat.mul n 1000%float)]) /\
  (forall s, period = VStr s ->
     timers w =
       if String.eqb s "" then []
       else [mkTimer CallRefreshToken (PrimFloat.mul (StringToNumber s) 1000%float)]).
Proof.
  intros period w.
  destruct (create_fields cfg bases origin href) as (_ & _ & _ & _ & Htim & _).
  fold w in Htim. fold period in Htim. unfold rearmed, times in Htim.
  split; [|split; [|split; [|split]]].
  - rewrite Htim. destruct (ToBoolean period); cbn; split; intros H; try reflexivity; discriminate H.
  - rewrite Htim. destruct (ToBoolean period); cbn; split; intros H; try reflexivity; discriminate H.
  - intros n Hn. rewrite Htim, Hn. cbn [ToBoolean ToNumber].
    unfold number_is_zero, number_is_nan, PrimFloat.zero.
    destruct (PrimFloat.eqb n 0%float || PrimFloat.is_nan n); reflexivity.
  - intros n Hn Hneg. rewrite Htim, Hn, (negative_is_truthy n Hneg). reflexivity.
  - intros s Hs. rewrite Htim, Hs. cbn [ToBoolean ToNumber].
    destruct (String.eqb s ""); reflexivity.
Qed.

(** X11.  As long as the document does not change, every request in
    flight is the one [refreshToken] issues for that document: to the
    [href] of the first [<base>] element, behind the origin when it starts
    with a slash, followed by [token], with [observe: "response"] and the
    [Headers] instance built from [{Accept: application/json}]; and there
    is one such request at most. *)
Theorem requests_go_to_token_endpoint cfg href rest origin loc es w :
  Forall keeps_document es ->
  run es (create cfg (href :: rest) origin loc) = Some w ->
  requests w = [] \/ requests w = [token_request origin href].
Proof.
  intros Hkeep Hrun.
  destruct (create_fields cfg (href :: rest) origin loc)
    as (_ & _ & _ & _ & _ & Hr0 & Hb0 & Ho0 & _).
  pose proof (requests_run origin href rest es _ w Hb0 Ho0) as Hall.
  rewrite Hr0 in Hall. specialize (Hall (fun r (H : In r []) => match H with end) Hkeep Hrun).
  pose proof (reachable_sequential cfg w
                (reachable_run cfg es _ w (reachable_create cfg _ _ _) Hrun)) as Hseq.
  unfold sequential in Hseq.
  destruct (requests w) as [|r [|r' rs]].
  - left. reflexivity.
  - right. rewrite (Hall r) by (left; reflexivity). reflexivity.
  - cbn in Hseq. lia.
Qed.

(** X12.  After an answer whose body has no [token] (an object without
    the property, a string, a number, an array), every call of
    [injectAuthHeaders] writes the header ["bearer undefined"]. *)
Theorem tokenless_answer_sends_bearer_undefined st auth h w :
  get_prop auth "token" = Return VUndefined ->
  let w' := snd (refreshToken_settle (inl (mkHttpResponse st auth)) w) in
  fst (injectAuthHeaders h w') = Return (<["Authorization" := "bearer undefined"]> h).
Proof.
  intros Htok w'.
  destruct (refreshToken_settle_response st auth w) as (_ & _ & Hcase). fold w' in Hcase.
  assert (Ha : accessToken w' = VUndefined).
  { destruct auth; cbn [get_prop] in Htok, Hcase; try discriminate Htok;
      destruct Hcase as [Ha _]; rewrite Ha; congruence. }
  unfold injectAuthHeaders, bind, gets, ret. cbn [fst]. rewrite Ha. reflexivity.
Qed.

(** X13.  Failures never stop the loop: from a world with one refresh
    pending and a [<base>] element, after any run of timers firing and of
    requests rejected with error objects, however long, one refresh is
    pending again and the token is the one held before. *)
Theorem failures_never_stop_the_loop es w w' :
  pending w = 1%nat ->
  base_elements w <> [] ->
  Forall failing_turn es ->
  run es w = Some w' ->
  pending w' = 1%nat /\
  accessToken w' = accessToken w /\
  base_elements w' = base_elements w.
Proof.
  intros Hp Hb Hall Hrun.
  split; [|split; [exact (proj1 (failing_run es w w' Hall Hrun))|]];
    revert w w' Hp Hb Hall Hrun; induction es as [|e es IH];
    intros w w' Hp Hb Hall; cbn [run];
    try (intros [= <-]; auto; fail);
    (destruct (step e w) as [w1|] eqn:He; [|discriminate]); intros Hrun;
    apply Forall_cons_1 in Hall as [Hhead Htail];
    destruct (failing_turn_pending e w w1 Hp Hb Hhead He) as [Hp1 Hb1].
  - apply (IH w1 w'); auto. rewrite Hb1. exact Hb.
  - rewrite <- Hb1. apply (IH w1 w'); auto. rewrite Hb1. exact Hb.
Qed.

(** X14.  Once nothing is pending the loop never restarts: the only turns
    left are calls of the public methods and changes of the document, and
    none of them, [logout()] and [injectAuthHeaders()] included, arms a
    timer, issues a request or changes the token. *)
Theorem halted_loop_never_restarts es w w' :
  pending w = 0%nat ->
  run es w = Some w' ->
  pending w' = 0%nat /\
  accessToken w' = accessToken w /\
  Forall (fun e => match e with ClientCalls _ | DocumentChanges _ _ => True | _ => False end) es.
Proof.
  revert w w'. induction es as [|e es IH]; intros w w' Hp; cbn [run].
  - intros [= <-]. auto.
  - destruct (step e w) as [w1|] eqn:He; [|discriminate]. intros Hrun.
    destruct (quiet_turn e w w1 Hp He) as (Hkind & Hp1 & Ha1).
    destruct (IH w1 w' Hp1 Hrun) as (Hp' & Ha' & Hall).
    split; [exact Hp'|]. split; [congruence|]. constructor; assumption.
Qed.

End FurtherProperties.

(** * Examples *)

#[local] Existing Instance example_conversions.

Lemma example_refreshing_reachable : reachable example_config example_refreshing.
Proof.
  apply (reachable_step example_config (TimerFires 0) example_created).
  - apply reachable_create.
  - vm_compute. reflexivity.
Defined.

Example example_request :
  timers example_created = [mkTimer CallRefreshToken (number_of_Z 60000)] /\
  timers example_refreshing = [] /\
  map url (requests example_refreshing) = ["https://studio.example/studio/token"].
Proof. vm_compute. repeat split. Qed.

Example example_run :
  run example_events example_refreshing = Some example_halted /\
  accessToken example_halted = VStr "xyz" /\
  timers example_halted = [] /\
  requests example_halted = [].
Proof. vm_compute. repeat split. Qed.

(** The product is the binary64 one: it rounds, and it overflows. *)
Example product_rounds :
  number_mul (number_of_Z 9007199254740991) (number_of_Z 1000)
  = 9007199254740990976%float /\
  (9007199254740991 * 1000 = 9007199254740990976 + 24)%Z.
Proof. split; [vm_compute; reflexivity | reflexivity]. Qed.

Example integer_literals :
  number_of_Z 30000 = 30000%float /\
  number_of_Z 1000 = 1000%float /\
  number_of_Z (-1) = (-1)%float /\
  number_of_Z 0 = 0%float.
Proof. vm_compute. repeat split. Qed.

Example product_overflows :
  number_mul (number_of_Z (2 ^ 1023)) (number_of_Z 1000) = PrimFloat.infinity /\
  number_mul (number_of_Z 60) (number_of_Z 1000) = 60000%float /\
  number_mul 0.5%float (number_of_Z 1000) = 500%float.
Proof. vm_compute. repeat split. Qed.

Lemma refresh_success_token_and_timer_witness :
  let props := [("token", VStr "xyz"); ("tokenRefreshPeriod", VNum 60%float)] in
  let r := refreshToken_settle (inl (mkHttpResponse 200 (VObj props))) example_refreshing in
  assoc "token" props = Some (VStr "xyz") /\
  assoc "tokenRefreshPeriod" props = Some (VNum 60%float) /\
  fst (getAuthenticationSecret (snd r)) = Return (VStr "xyz") /\
  timers (snd r) = timers example_refreshing ++ [mkTimer CallRefreshToken 60000%float].
Proof.
  intros props r.
  destruct (refresh_success_token_and_timer 200 props (VStr "xyz")
              (Some (VNum 60%float)) example_refreshing eq_refl eq_refl)
    as (_ & Htok & _ & _ & _ & Hsec & _).
  split; [reflexivity|]. split; [reflexivity|]. split; [exact Htok|].
  exact (Hsec 60 (conj eq_refl eq_refl) eq_refl).
Defined.

(** C1 as stated fails: with the period -1, which is not positive, the
    handler arms a timer all the same. *)
Lemma refresh_success_negative_period_arms_timer :
  let w := example_refreshing in
  let w' := snd (refreshToken_settle (inl (example_answer (-1))) w) in
  accessToken w' = VStr "xyz" /\
  timers w = [] /\
  timers w' = [mkTimer CallRefreshToken (-1000)%float] /\
  PrimFloat.ltb 0%float (-1)%float = false /\
  ~ ((exists tm, timers w' = timers w ++ [tm]) <->
     number_is_positive (number_of_Z (-1)) = true).
Proof.
  cbv zeta.
  assert (Htim : timers (snd (refreshToken_settle (inl (example_answer (-1))) example_refreshing))
                 = timers example_refreshing ++ [mkTimer CallRefreshToken (-1000)%float])
    by (vm_compute; reflexivity).
  split; [vm_compute; reflexivity|]. split; [vm_compute; reflexivity|].
  split; [vm_compute; reflexivity|].
  split; [reflexivity|]. intros [Harmed _].
  assert (Hpos : number_is_positive (number_of_Z (-1)) = true).
  { apply Harmed. eexists. exact Htim. }
  vm_compute in Hpos. discriminate Hpos.
Qed.

Lemma constructor_schedules_refresh_witness :
  authRefreshPeriod example_config = VNum 60%float /\
  timers example_created = [mkTimer CallRefreshToken 60000%float] /\
  accessToken example_created = VStr "abc" /\
  timers (create (mkConfigService (VStr "abc") VUndefined VNull "/logout") [] "" "") = [].
Proof.
  destruct (constructor_schedules_refresh example_config ["/studio/"]
              "https://studio.example" "https://studio.example/studio/")
    as (_ & Htok & _ & _ & Hsec & _).
  destruct (constructor_schedules_refresh
              (mkConfigService (VStr "abc") VUndefined VNull "/logout") [] "" "")
    as (_ & _ & _ & _ & _ & Habsent).
  split; [reflexivity|].
  split; [exact (Hsec 60 (conj eq_refl eq_refl) eq_refl)|].
  split; [exact Htok|].
  apply Habsent. left. reflexivity.
Defined.

Lemma at_most_one_pending_refresh_witness :
  reachable example_config example_refreshing /\
  (length (timers example_refreshing) + length (requests example_refreshing) <= 1)%nat.
Proof.
  split; [exact example_refreshing_reachable|].
  exact (proj1 (at_most_one_pending_refresh example_config example_refreshing
                  example_refreshing_reachable)).
Defined.

Lemma refresh_keeps_authenticated_user_witness :
  let es := [ResponseArrives 0 (example_answer 60)] in
  let w' := example_settled (inl (example_answer 60)) example_refreshing in
  reachable example_config example_refreshing /\
  run es example_refreshing = Some w' /\
  accessToken w' = VStr "xyz" /\
  fst (getAuthenticatedUserNow w') = Return (user example_config) /\
  _authenticatedUser w' = _authenticatedUser example_refreshing.
Proof.
  intros es w'.
  assert (Hrun : run es example_refreshing = Some w') by (vm_compute; reflexivity).
  destruct (refresh_keeps_authenticated_user example_config example_refreshing es w'
              example_refreshing_reachable Hrun)
    as (_ & _ & Hnow & _ & Huser & _).
  split; [exact example_refreshing_reachable|]. split; [exact Hrun|].
  split; [vm_compute; reflexivity|]. split; [exact Hnow | exact Huser].
Defined.

Lemma isAuthenticated_emits_true_witness :
  reachable example_config example_refreshing /\
  run example_events example_refreshing = Some example_halted /\
  BehaviorSubject.subscribe (_authenticated example_halted) = Return [OnNext true] /\
  emitted (_authenticated example_halted) = [OnNext true].
Proof.
  assert (Hrun : run example_events example_refreshing = Some example_halted)
    by (vm_compute; reflexivity).
  destruct (isAuthenticated_emits_true example_config example_refreshing example_events
              example_halted example_refreshing_reachable Hrun)
    as (_ & _ & Hlog & _ & _ & Hsub).
  split; [exact example_refreshing_reachable|]. split; [exact Hrun|].
  split; [exact Hsub | exact Hlog].
Defined.

Lemma refresh_success_without_fields_halts_witness :
  let answer := mkHttpResponse 200 (VObj []) in
  let w' := example_settled (inl answer) example_refreshing in
  reachable example_config example_refreshing /\
  assoc "token" [] = None /\
  assoc "tokenRefreshPeriod" [] = None /\
  step (ResponseArrives 0 answer) example_refreshing = Some w' /\
  accessToken w' = VUndefined /\
  timers w' = [] /\
  requests w' = [].
Proof.
  intros answer w'.
  assert (Hstep : step (ResponseArrives 0 answer) example_refreshing = Some w')
    by (vm_compute; reflexivity).
  destruct (refresh_success_without_fields_halts example_config example_refreshing 200 [] w'
              example_refreshing_reachable eq_refl eq_refl Hstep)
    as (_ & Htok & Htim & Hreq & _).
  split; [exact example_refreshing_reachable|].
  split; [reflexivity|]. split; [reflexivity|]. split; [exact Hstep|].
  split; [exact Htok|]. split; [exact Htim | exact Hreq].
Defined.

Lemma getAuthenticatedUser_emits_configured_user_witness :
  reachable example_config example_refreshing /\
  run example_events example_refreshing = Some example_halted /\
  BehaviorSubject.subscribe (_authenticatedUser example_halted)
  = Return [OnNext (VObj [("login", VStr "alice")])].
Proof.
  assert (Hrun : run example_events example_refreshing = Some example_halted)
    by (vm_compute; reflexivity).
  destruct (getAuthenticatedUser_emits_configured_user example_config example_refreshing
              example_events example_halted example_refreshing_reachable Hrun)
    as ((subject & Hget & Hsub) & _).
  split; [exact example_refreshing_reachable|]. split; [exact Hrun|].
  injection Hget as <-. exact Hsub.
Defined.

Lemma token_is_last_answered_witness :
  run example_events example_refreshing = Some example_halted /\
  token_after example_events (VStr "abc") = VStr "xyz" /\
  fst (getAuthenticationSecret example_halted) = Return (VStr "xyz").
Proof.
  assert (Hrun : run example_events example_refreshing = Some example_halted)
    by (vm_compute; reflexivity).
  split; [exact Hrun|]. split; [reflexivity|].
  exact (token_is_last_answered example_events example_refreshing example_halted Hrun).
Defined.

Lemma empty_answer_retries_witness :
  let r := refreshToken_settle (inl (mkHttpResponse 204 VNull)) example_refreshing in
  nullish VNull = true /\
  accessToken (snd r) = accessToken example_refreshing /\
  timers (snd r) = timers example_refreshing ++ [mkTimer CallRefreshToken (number_of_Z 30000)].
Proof.
  intros r.
  destruct (empty_answer_retries 204 VNull example_refreshing eq_refl)
    as (_ & _ & Ha & Ht & _).
  split; [reflexivity|]. split; [exact Ha | exact Ht].
Defined.

Lemma primitive_answer_clobbers_token_witness :
  let r := refreshToken_settle (inl (mkHttpResponse 200 (VStr "ok"))) example_refreshing in
  fst (getAuthenticationSecret (snd r)) = Return VUndefined /\
  timers (snd r) = timers example_refreshing.
Proof.
  intros r.
  destruct (primitive_answer_clobbers_token 200 (VStr "ok") example_refreshing I)
    as (_ & _ & Ha & Ht & _).
  split; [exact Ha | exact Ht].
Defined.

Lemma refresh_without_base_halts_witness :
  let w' := snd (refreshToken (set_timers [] example_baseless)) in
  reachable example_config example_baseless /\
  base_elements example_baseless = [] /\
  step (TimerFires 0) example_baseless = Some w' /\
  timers w' = [] /\
  requests w' = [].
Proof.
  intros w'.
  assert (Hreach : reachable example_config example_baseless) by apply reachable_create.
  assert (Hstep : step (TimerFires 0) example_baseless = Some w') by (vm_compute; reflexivity).
  destruct (refresh_without_base_halts example_config example_baseless 0 w' Hreach eq_refl Hstep)
    as (_ & Ht & Hr & _).
  split; [exact Hreach|]. split; [reflexivity|]. split; [exact Hstep|].
  split; [exact Ht | exact Hr].
Defined.

Lemma turn_halts_or_keeps_pending_witness :
  let e := ResponseArrives 0 (example_answer 0) in
  let w' := example_settled (inl (example_answer 0)) example_refreshing in
  reachable example_config example_refreshing /\
  step e example_refreshing = Some w' /\
  halts example_refreshing e = true /\
  pending example_refreshing = 1%nat /\
  pending w' = 0%nat.
Proof.
  intros e w'.
  assert (Hstep : step e example_refreshing = Some w') by (vm_compute; reflexivity).
  pose proof (turn_halts_or_keeps_pending example_config example_refreshing e w'
                example_refreshing_reachable Hstep) as Hp.
  split; [exact example_refreshing_reachable|]. split; [exact Hstep|].
  split; [reflexivity|]. split; [vm_compute; reflexivity | exact Hp].
Defined.

Lemma injectAuthHeaders_replaces_stale_header_witness :
  let h1 : gmap string string := {["Authorization" := "bearer abc"]} in
  let w' := example_settled (inl (example_answer 60)) example_refreshing in
  fst (injectAuthHeaders ∅ example_created) = Return h1 /\
  injectAuthHeaders h1 w' = injectAuthHeaders ∅ w'.
Proof.
  intros h1 w'.
  assert (Hfirst : fst (injectAuthHeaders ∅ example_created) = Return h1)
    by (vm_compute; reflexivity).
  split; [exact Hfirst|].
  exact (proj1 (injectAuthHeaders_replaces_stale_header ∅ h1 example_created w' Hfirst)).
Defined.

Lemma requests_go_to_token_endpoint_witness :
  Forall keeps_document [TimerFires 0] /\
  run [TimerFires 0] example_created = Some example_refreshing /\
  requests example_refreshing = [token_request "https://studio.example" "/studio/"] /\
  url (token_request "https://studio.example" "/studio/")
  = "https://studio.example/studio/token".
Proof.
  assert (Hkeep : Forall keeps_document [TimerFires 0]) by (repeat constructor).
  assert (Hrun : run [TimerFires 0] example_created = Some example_refreshing)
    by (vm_compute; reflexivity).
  split; [exact Hkeep|]. split; [exact Hrun|]. split; [|vm_compute; reflexivity].
  destruct (requests_go_to_token_endpoint example_config "/studio/" []
              "https://studio.example" "https://studio.example/studio/"
              [TimerFires 0] example_refreshing Hkeep Hrun) as [Hnone | Hone].
  - vm_compute in Hnone. discriminate Hnone.
  - exact Hone.
Defined.

Lemma constructor_arms_iff_truthy_witness :
  timers (create (mkConfigService (VStr "abc") (VNum (-1)%float) VNull "/logout") [] "" "")
  = [mkTimer CallRefreshToken (-1000)%float] /\
  timers (create (mkConfigService (VStr "abc") (VNum PrimFloat.nan) VNull "/logout") [] "" "")
  = [] /\
  timers (create (mkConfigService (VStr "abc") (VNum (-0)%float) VNull "/logout") [] "" "")
  = [] /\
  timers (create (mkConfigService (VStr "abc") (VStr "") VNull "/logout") [] "" "") = [].
Proof.
  destruct (constructor_arms_iff_truthy
              (mkConfigService (VStr "abc") (VNum (-1)%float) VNull "/logout") [] "" "")
    as (_ & _ & _ & Hneg & _).
  destruct (constructor_arms_iff_truthy
              (mkConfigService (VStr "abc") (VNum PrimFloat.nan) VNull "/logout") [] "" "")
    as (_ & _ & Hnan & _).
  destruct (constructor_arms_iff_truthy
              (mkConfigService (VStr "abc") (VNum (-0)%float) VNull "/logout") [] "" "")
    as (_ & _ & Hzero & _).
  destruct (constructor_arms_iff_truthy
              (mkConfigService (VStr "abc") (VStr "") VNull "/logout") [] "" "")
    as (_ & _ & _ & _ & Hstr).
  split; [exact (Hneg (-1)%float eq_refl eq_refl)|].
  split; [exact (Hnan PrimFloat.nan eq_refl)|].
  split; [exact (Hzero (-0)%float eq_refl) | exact (Hstr "" eq_refl)].
Defined.

Lemma tokenless_answer_sends_bearer_undefined_witness :
  let w' := snd (refreshToken_settle (inl (mkHttpResponse 200 (VObj []))) example_refreshing) in
  get_prop (VObj []) "token" = Return VUndefined /\
  fst (injectAuthHeaders ∅ w') = Return {["Authorization" := "bearer undefined"]}.
Proof.
  intros w'. split; [reflexivity|].
  exact (tokenless_answer_sends_bearer_undefined 200 (VObj []) ∅ example_refreshing eq_refl).
Defined.

Lemma failures_never_stop_the_loop_witness :
  let es := [RequestFails 0 (HttpErrorResponse 0 "Unknown Error"); TimerFires 0] in
  pending example_refreshing = 1%nat /\
  base_elements example_refreshing <> [] /\
  Forall failing_turn es /\
  run es example_refreshing = Some example_retrying /\
  pending example_retrying = 1%nat /\
  accessToken example_retrying = accessToken example_refreshing.
Proof.
  intros es.
  assert (Hp : pending example_refreshing = 1%nat) by (vm_compute; reflexivity).
  assert (Hb : base_elements example_refreshing <> []) by (vm_compute; discriminate).
  assert (Hall : Forall failing_turn es) by (repeat constructor).
  assert (Hrun : run es example_refreshing = Some example_retrying)
    by (vm_compute; reflexivity).
  destruct (failures_never_stop_the_loop es example_refreshing example_retrying
              Hp Hb Hall Hrun) as (Hp' & Ha & _).
  repeat (split; [assumption|]). exact Ha.
Defined.

Lemma halted_loop_never_restarts_witness :
  let es := [ClientCalls Call_logout; ClientCalls (Call_injectAuthHeaders ∅)] in
  let w' := snd (logout example_halted) in
  pending example_halted = 0%nat /\
  run es example_halted = Some w' /\
  pending w' = 0%nat /\
  accessToken w' = accessToken example_halted.
Proof.
  intros es w'.
  assert (Hp : pending example_halted = 0%nat) by (vm_compute; reflexivity).
  assert (Hrun : run es example_halted = Some w') by (vm_compute; reflexivity).
  destruct (halted_loop_never_restarts es example_halted w' Hp Hrun) as (Hp' & Ha & _).
  split; [exact Hp|]. split; [exact Hrun|]. split; [exact Hp' | exact Ha].
Defined.
